(** * WILDS examples: configuration defaults and the Deep CORAL objective

    A shallow embedding of
    - [examples/configs/utils.py]: [populate_config], [populate_defaults];
    - [examples/algorithms/deepCORAL.py]: [coral_penalty], [objective];
    with the properties stated for them. *)

From Stdlib Require Import ZArith Lia QArith Qcanon PrimFloat Uint63.
From stdpp Require Import base option list strings gmap.

Local Open Scope string_scope.

(** ** Python values

    The values a namespace attribute or a preset entry can hold.  Python
    dictionaries keep insertion order and have unique keys: they are lists
    of (key, value) pairs, keys being strings.  Floats are left out: no
    preset-merging decision depends on one other than through [==]. *)

#[warnings="-register-all"]
Inductive value : Type :=
| VNone
| VBool (b : bool)
| VInt (z : Z)
| VStr (s : string)
| VList (l : list value)
| VDict (d : list (string * value)).

Abbreviation dict := (list (string * value)).

Definition is_dict (v : value) : bool :=
  match v with VDict _ => true | _ => false end.

Definition is_none (v : value) : bool :=
  match v with VNone => true | _ => false end.

(** [d[k]] as a lookup: the first (only) pair with key [k]. *)
Fixpoint dict_get (d : dict) (k : string) : option value :=
  match d with
  | [] => None
  | (k', v) :: d' => if String.eqb k' k then Some v else dict_get d' k
  end.

(** [d[k] = v]: an existing key keeps its position, a new one is appended. *)
Fixpoint dict_set (d : dict) (k : string) (v : value) : dict :=
  match d with
  | [] => [(k, v)]
  | (k', v') :: d' =>
      if String.eqb k' k then (k', v) :: d' else (k', v') :: dict_set d' k v
  end.

Definition keys (d : dict) : list string := map fst d.

(** Python's [==] on these values: [bool] is a subtype of [int]
    ([True == 1]), lists compare elementwise, dictionaries compare as maps
    (order is ignored). *)
Fixpoint py_eq (a b : value) {struct a} : bool :=
  match a, b with
  | VNone, VNone => true
  | VBool x, VBool y => Bool.eqb x y
  | VBool x, VInt y => Z.eqb (Z.b2z x) y
  | VInt x, VBool y => Z.eqb x (Z.b2z y)
  | VInt x, VInt y => Z.eqb x y
  | VStr x, VStr y => String.eqb x y
  | VList xs, VList ys =>
      (fix go (xs ys : list value) {struct xs} : bool :=
         match xs, ys with
         | [], [] => true
         | x :: xs', y :: ys' => py_eq x y && go xs' ys'
         | _, _ => false
         end) xs ys
  | VDict xs, VDict ys =>
      Nat.eqb (length xs) (length ys) &&
      (fix go (xs : dict) {struct xs} : bool :=
         match xs with
         | [] => true
         | (k, x) :: xs' =>
             match dict_get ys k with
             | Some y => py_eq x y
             | None => false
             end && go xs'
         end) xs
  | _, _ => false
  end.

Definition py_ne (a b : value) : bool := negb (py_eq a b).

(** ** Exceptions and results

    A call either returns or raises; a raised exception ends the call.  The
    [ValueError] and [AssertionError] messages are kept by their parts. *)

Inductive message : Type :=
| MustBeSet (key : string) (val : value)
    (* "Argument {key} must be set to {val}" *)
| MustBeSetKw (key kwargs_key : string) (val : value)
    (* "Argument {key}[{kwargs_key}] must be set to {val}" *)
| NGroupsPerBatch (v : value)
    (* "... but n_groups_per_batch was {v}, when it should be 1." *)
| UnlabeledNGroupsPerBatch (v : value)
    (* "... but unlabeled_n_groups_per_batch was {v}, when it should be 1." *)
| DannLr.
    (* "Cannot pass in a value for lr. For DANN, ..." *)

Inductive exn : Type :=
| ValueError (m : message)
| AssertionError (msg : string)
| KeyError (key : value)
| TypeError
| AttributeError (name : string)
| IndexError
| RuntimeError.

Inductive result (A : Type) : Type :=
| Ok (a : A)
| Raise (e : exn).
Arguments Ok {A} a.
Arguments Raise {A} e.

Definition bind {A B} (r : result A) (f : A -> result B) : result B :=
  match r with
  | Ok a => f a
  | Raise e => Raise e
  end.

Notation "'let*' x ':=' r 'in' k" := (bind r (fun x => k))
  (at level 10, x name, r at level 100, k at level 200).
Notation "'let*' ' p ':=' r 'in' k" := (bind r (fun p => k))
  (at level 10, p strict pattern, r at level 100, k at level 200).

(** ** [populate_config] (utils.py, lines 109-134) *)

(** Lines 129-133, the loop over [val.items()].  [d_key] is [d_config[key]],
    re-read at every iteration; anything but a dictionary there fails the
    [in] test or the item assignment with a [TypeError]. *)
Fixpoint populate_kwargs (force_compatibility : bool) (key : string)
    (val : dict) (d_key : value) (items : dict) : result value :=
  match items with
  | [] => Ok d_key
  | (kwargs_key, kwargs_val) :: rest =>
      match d_key with
      | VDict d =>
          match dict_get d kwargs_key with
          | None | Some VNone =>
              populate_kwargs force_compatibility key val
                (VDict (dict_set d kwargs_key kwargs_val)) rest
          | Some cur =>
              if py_ne cur kwargs_val && force_compatibility
              then Raise (ValueError (MustBeSetKw key kwargs_key (VDict val)))
              else populate_kwargs force_compatibility key val d_key rest
          end
      | _ => Raise TypeError
      end
  end.

(** Lines 121-133, the loop over [template.items()]. *)
Fixpoint populate_items (force_compatibility : bool) (d_config : dict)
    (items : dict) : result dict :=
  match items with
  | [] => Ok d_config
  | (key, val) :: rest =>
      match val with
      | VDict kwargs =>
          match kwargs with
          | [] => populate_items force_compatibility d_config rest
          | _ :: _ =>
              match dict_get d_config key with
              | None => Raise (KeyError (VStr key))
              | Some d_key =>
                  let* d_key' :=
                    populate_kwargs force_compatibility key kwargs d_key kwargs
                  in
                  populate_items force_compatibility
                    (dict_set d_config key d_key') rest
              end
          end
      | _ =>
          match dict_get d_config key with
          | None | Some VNone =>
              populate_items force_compatibility (dict_set d_config key val)
                rest
          | Some cur =>
              if py_ne cur val && force_compatibility
              then Raise (ValueError (MustBeSet key val))
              else populate_items force_compatibility d_config rest
          end
      end
  end.

(** The namespace is its attribute dictionary, [vars(config)]. *)
Definition populate_config (config : dict) (template : option dict)
    (force_compatibility : bool) : result dict :=
  match template with
  | None => Ok config
  | Some t => populate_items force_compatibility config t
  end.

(** ** [populate_defaults] (utils.py, lines 7-87) *)

(** The preset tables imported at lines 1-5; they are not part of these
    sources and are taken as given. *)
Record presets : Type := {
  dataset_defaults : gmap string dict;
  split_defaults : gmap string (gmap string dict);
  algorithm_defaults : gmap string dict;
  loader_defaults : dict;
  model_defaults : gmap string dict;
  scheduler_defaults : gmap string dict
}.

(** [config.name] *)
Definition getattr (config : dict) (name : string) : result value :=
  match dict_get config name with
  | Some v => Ok v
  | None => Raise (AttributeError name)
  end.

(** [config.name = v] *)
Definition setattr (config : dict) (name : string) (v : value) : dict :=
  dict_set config name v.

(** [bool(v)] *)
Definition truthy (v : value) : bool :=
  match v with
  | VNone => false
  | VBool b => b
  | VInt z => negb (Z.eqb z 0)
  | VStr s => negb (String.eqb s "")
  | VList l => match l with [] => false | _ => true end
  | VDict d => match d with [] => false | _ => true end
  end.

Definition hashable (v : value) : bool :=
  match v with
  | VList _ | VDict _ => false
  | _ => true
  end.

(** [table[v]] for a table keyed by strings. *)
Definition getitem {A} (table : gmap string A) (v : value) : result A :=
  if hashable v then
    match v with
    | VStr s =>
        match table !! s with
        | Some a => Ok a
        | None => Raise (KeyError v)
        end
    | _ => Raise (KeyError v)
    end
  else Raise TypeError.

(** [v in table] for a table keyed by strings. *)
Definition contains {A} (table : gmap string A) (v : value) : result bool :=
  if hashable v then
    match v with
    | VStr s => Ok (bool_decide (is_Some (table !! s)))
    | _ => Ok false
    end
  else Raise TypeError.

Definition py_assert (b : bool) (msg : string) : result unit :=
  if b then Ok tt else Raise (AssertionError msg).

Definition from_source_domain : value := VList [VStr "from_source_domain"].

(** Lines 10-35: the two assertions and the validations. *)
Definition validations (config : dict) : result dict :=
  let* dataset := getattr config "dataset" in
  let* _ := py_assert (negb (is_none dataset)) "dataset must be specified" in
  let* algorithm := getattr config "algorithm" in
  let* _ := py_assert (negb (is_none algorithm)) "algorithm must be specified" in
  let* groupby_fields := getattr config "groupby_fields" in
  let* config :=
    if py_eq groupby_fields from_source_domain then
      let* n := getattr config "n_groups_per_batch" in
      let* config :=
        if is_none n then Ok (setattr config "n_groups_per_batch" (VInt 1))
        else if py_ne n (VInt 1) then Raise (ValueError (NGroupsPerBatch n))
        else Ok config in
      let* u := getattr config "unlabeled_n_groups_per_batch" in
      if is_none u
      then Ok (setattr config "unlabeled_n_groups_per_batch" (VInt 1))
      else if py_ne u (VInt 1)
      then Raise (ValueError (UnlabeledNGroupsPerBatch u))
      else Ok config
    else Ok config in
  let* algorithm := getattr config "algorithm" in
  if py_eq algorithm (VStr "DANN") then
    let* lr := getattr config "lr" in
    if negb (is_none lr) then Raise (ValueError DannLr) else Ok config
  else Ok config.

(** Lines 38-42. *)
Definition dataset_layer (P : presets) (config : dict) : result dict :=
  let* dataset := getattr config "dataset" in
  let* template := getitem (dataset_defaults P) dataset in
  populate_config config (Some template) false.

(** Lines 44-49. *)
Definition split_layer (P : presets) (config : dict) : result dict :=
  let* dataset := getattr config "dataset" in
  let* has_dataset := contains (split_defaults P) dataset in
  if has_dataset then
    let* split_scheme := getattr config "split_scheme" in
    let* by_scheme := getitem (split_defaults P) dataset in
    let* has_scheme := contains by_scheme split_scheme in
    if has_scheme then
      let* dataset := getattr config "dataset" in
      let* by_scheme := getitem (split_defaults P) dataset in
      let* split_scheme := getattr config "split_scheme" in
      let* template := getitem by_scheme split_scheme in
      populate_config config (Some template) false
    else Ok config
  else Ok config.

(** Lines 51-55. *)
Definition algorithm_layer (P : presets) (config : dict) : result dict :=
  let* algorithm := getattr config "algorithm" in
  let* template := getitem (algorithm_defaults P) algorithm in
  populate_config config (Some template) false.

(** Lines 57-61. *)
Definition loader_layer (P : presets) (config : dict) : result dict :=
  populate_config config (Some (loader_defaults P)) false.

(** Lines 62-66. *)
Definition model_layer (P : presets) (config : dict) : result dict :=
  let* model := getattr config "model" in
  if truthy model then
    let* model := getattr config "model" in
    let* template := getitem (model_defaults P) model in
    populate_config config (Some template) false
  else Ok config.

(** Lines 68-72. *)
Definition scheduler_layer (P : presets) (config : dict) : result dict :=
  let* scheduler := getattr config "scheduler" in
  if truthy scheduler then
    let* scheduler := getattr config "scheduler" in
    let* template := getitem (scheduler_defaults P) scheduler in
    populate_config config (Some template) false
  else Ok config.

(** Lines 38-72: the cascade of preset layers. *)
Definition cascade (P : presets) (config : dict) : result dict :=
  let* config := dataset_layer P config in
  let* config := split_layer P config in
  let* config := algorithm_layer P config in
  let* config := loader_layer P config in
  let* config := model_layer P config in
  scheduler_layer P config.

(** Lines 75-77. *)
Definition misc_defaults (config : dict) : result dict :=
  let* groupby_fields := getattr config "groupby_fields" in
  let config :=
    if is_none groupby_fields
    then setattr config "no_group_logging" (VBool true)
    else config in
  let* no_group_logging := getattr config "no_group_logging" in
  Ok (setattr config "no_group_logging" (VBool (truthy no_group_logging))).

(** Lines 80-83. *)
Definition required_fields : list string :=
  ["split_scheme"; "train_loader"; "uniform_over_groups"; "batch_size";
   "eval_loader"; "model"; "loss_function"; "val_metric";
   "val_metric_decreasing"; "n_epochs"; "optimizer"; "lr"; "weight_decay"].

Definition must_specify (field : string) : string :=
  "Must manually specify " ++ field ++ " for this setup.".

(** Lines 84-85. *)
Fixpoint check_required (config : dict) (fields : list string) : result unit :=
  match fields with
  | [] => Ok tt
  | field :: rest =>
      let* v := getattr config field in
      let* _ := py_assert (negb (is_none v)) (must_specify field) in
      check_required config rest
  end.

Definition populate_defaults (P : presets) (config : dict) : result dict :=
  let* config := validations config in
  let* config := cascade P config in
  let* config := misc_defaults config in
  let* _ := check_required config required_fields in
  Ok config.

(** ** Deep CORAL (deepCORAL.py)

    Tensor entries and Python floats are one type of numbers with the
    operations the code uses on them.  Nothing is assumed about their
    arithmetic unless a statement says so: what is proved of the code holds
    for floating point as for exact numbers. *)

Record numbers : Type := {
  num :> Type;
  zero : num;
  add : num -> num -> num;
  sub : num -> num -> num;
  mul : num -> num -> num;
  div : num -> num -> num;
  (** an [int] used as a number: [len(x) - 1], the number of pairs *)
  of_Z : Z -> num
}.

Section DeepCORAL.

Context {N : numbers}.

(** A feature vector. *)
Abbreviation row := (list N).

(** A tensor of size (batch_size, ..., feature dimensionality): [ndim] is
    [x.dim()] and [items] has, for each index of the first axis, the rows
    of that slice in order.  For a 2-dimensional tensor every slice is one
    row. *)
Record tensor : Type := {
  ndim : nat;
  items : list (list row)
}.

(** [x.view(-1, x.size(-1))]; on a 2-dimensional tensor, the tensor. *)
Definition view2 (x : tensor) : list row := concat (items x).

(** [x[idx]] for a tensor of indices, along the first axis. *)
Fixpoint index_items (its : list (list row)) (idx : list nat)
    : result (list (list row)) :=
  match idx with
  | [] => Ok []
  | i :: idx' =>
      match its !! i with
      | Some it => let* rest := index_items its idx' in Ok (it :: rest)
      | None => Raise IndexError
      end
  end.

Definition index_select (x : tensor) (idx : list nat) : result tensor :=
  let* its := index_items (items x) idx in
  Ok {| ndim := ndim x; items := its |}.

Definition sum (l : list N) : N := fold_left (add N) l (zero N).

Definition column (j : nat) (x : list row) : list N :=
  map (fun r => nth j r (zero N)) x.

Definition len (x : list row) : Z := Z.of_nat (length x).

(** [x.mean(0, keepdim=True)], for [d] columns *)
Definition mean0 (d : nat) (x : list row) : row :=
  map (fun j => div N (sum (column j x)) (of_Z N (len x))) (seq 0 d).

(** [x - mean_x], the mean broadcast over the rows *)
Definition center (d : nat) (x : list row) (mean_x : row) : list row :=
  map (fun r => map (fun j => sub N (nth j r (zero N)) (nth j mean_x (zero N)))
                    (seq 0 d)) x.

(** [(cent_x.t() @ cent_x) / (len(x) - 1)], with [n] for [len(x)] *)
Definition covariance (d : nat) (cent_x : list row) (n : Z) : list row :=
  map (fun a =>
         map (fun b =>
                div N
                  (sum (map (fun r => mul N (nth a r (zero N))
                                            (nth b r (zero N))) cent_x))
                  (of_Z N (n - 1)))
             (seq 0 d))
      (seq 0 d).

(** [a.pow(2)] *)
Definition pow2 (a : N) : N := mul N a a.

(** [t.mean()] over all the entries of [t] *)
Definition mean_all (entries : list N) : N :=
  div N (sum entries) (of_Z N (Z.of_nat (length entries))).

(** Lines 61-71, on 2-dimensional tensors with [d] columns. *)
Definition coral_penalty2 (d : nat) (x y : list row) : N :=
  let mean_x := mean0 d x in
  let mean_y := mean0 d y in
  let cent_x := center d x mean_x in
  let cent_y := center d y mean_y in
  let cova_x := covariance d cent_x (len x) in
  let cova_y := covariance d cent_y (len y) in
  let mean_diff :=
    mean_all (map (fun j => pow2 (sub N (nth j mean_x (zero N))
                                        (nth j mean_y (zero N))))
                  (seq 0 d)) in
  let cova_diff :=
    mean_all
      (concat
         (map (fun a =>
                 map (fun b =>
                        pow2 (sub N (nth b (nth a cova_x []) (zero N))
                                    (nth b (nth a cova_y []) (zero N))))
                     (seq 0 d))
              (seq 0 d))) in
  add N mean_diff cova_diff.

(** Lines 54-71; [d] is the feature dimensionality, [x.size(-1)].  With [x]
    2-dimensional [y] is not flattened, and [cent_y.t()] fails on more than
    2 dimensions. *)
Definition coral_penalty (d : nat) (x y : tensor) : result N :=
  if (2 <? ndim x)%nat then Ok (coral_penalty2 d (view2 x) (view2 y))
  else if (2 <? ndim y)%nat then Raise RuntimeError
  else Ok (coral_penalty2 d (view2 x) (view2 y)).

(** *** The results mapping and [objective] (lines 100-137) *)

Inductive rvalue : Type :=
| RTensor (t : tensor)       (* features, predictions, labels, metadata *)
| RGroups (g : list Z)       (* group identifiers, one per example *)
| RNum (x : N).              (* a plain number *)

(** What [objective] reads of [self]. *)
Record algorithm : Type := {
  is_training : bool;
  penalty_weight : N;
  (** [self.loss.compute(y_pred, y_true, return_dict=False)] *)
  loss_compute : rvalue -> rvalue -> result N;
  (** the featurizer's output dimensionality *)
  d_features : nat
}.

(** Modelled from the spec: [split_into_groups] of wilds/common/utils.py,
    which is not among these sources.  It partitions the examples by group
    identifier: the distinct identifiers, and for each of them the
    positions of its examples in batch order. *)
Definition split_into_groups (g : list Z) : list Z * list (list nat) :=
  let unique_groups := remove_dups g in
  (unique_groups,
   map (fun u => filter (fun i => g !! i = Some u) (seq 0 (length g)))
       unique_groups).

Definition as_groups (v : rvalue) : result (list Z) :=
  match v with RGroups g => Ok g | _ => Raise TypeError end.

Definition as_tensor (v : rvalue) : result tensor :=
  match v with RTensor t => Ok t | _ => Raise TypeError end.

(** [results[key]] *)
Definition rget (results : gmap string rvalue) (key : string)
    : result rvalue :=
  match results !! key with
  | Some v => Ok v
  | None => Raise (KeyError (VStr key))
  end.

(** Lines 122-124, for one group: [i_features[group_indices[i_group]]].
    [unlabeled_features] is bound only when the mapping had the key. *)
Definition group_slice (labeled_features : rvalue)
    (unlabeled_features : option rvalue) (n_groups_per_batch : nat)
    (group_indices : list (list nat)) (i_group : nat) : result tensor :=
  let i_features :=
    if (i_group <? n_groups_per_batch)%nat then Some labeled_features
    else unlabeled_features in
  match i_features with
  | Some v =>
      let* t := as_tensor v in
      match group_indices !! i_group with
      | Some idx => index_select t idx
      | None => Raise IndexError
      end
  | None => Raise RuntimeError
  end.

(** Lines 122-124: one step of the inner loop. *)
Definition pair_penalty (d : nat) (labeled_features : rvalue)
    (unlabeled_features : option rvalue) (n_groups_per_batch : nat)
    (group_indices : list (list nat)) (i_group j_group : nat) : result N :=
  let* xi := group_slice labeled_features unlabeled_features
               n_groups_per_batch group_indices i_group in
  let* xj := group_slice labeled_features unlabeled_features
               n_groups_per_batch group_indices j_group in
  coral_penalty d xi xj.

(** The pairs visited by the loops of lines 120-121, in order. *)
Definition group_pairs (total : nat) : list (nat * nat) :=
  flat_map (fun i => map (fun j => (i, j)) (seq (S i) (total - S i)))
           (seq 0 total).

(** Lines 120-124: [penalty += ...] over the pairs. *)
Fixpoint add_penalties (f : nat -> nat -> result N)
    (pairs : list (nat * nat)) (penalty : N) : result N :=
  match pairs with
  | [] => Ok penalty
  | (i, j) :: rest =>
      let* p := f i j in add_penalties f rest (add N penalty p)
  end.

(** [total * (total - 1) / 2] *)
Definition n_pairs (total : nat) : Z :=
  (Z.of_nat total * (Z.of_nat total - 1) / 2)%Z.

(** Lines 109-115. *)
Definition unlabeled_groups (results : gmap string rvalue)
    : result (gmap string rvalue * option rvalue * nat * list (list nat)) :=
  match results !! "unlabeled_features" with
  | Some unlabeled_features =>
      let results := delete "unlabeled_features" results in
      let* ug := rget results "unlabeled_g" in
      let* ug := as_groups ug in
      let '(unlabeled_unique_groups, unlabeled_group_indices) :=
        split_into_groups ug in
      Ok (results, Some unlabeled_features, length unlabeled_unique_groups,
          unlabeled_group_indices)
  | None => Ok (results, None, 0%nat, [])
  end.

(** Lines 105-126: the penalty in training mode, with the results mapping
    after the pop. *)
Definition training_penalty (d : nat) (labeled_features : rvalue)
    (results : gmap string rvalue) : result (gmap string rvalue * N) :=
  let* g := rget results "g" in
  let* g := as_groups g in
  let '(unique_groups, group_indices) := split_into_groups g in
  let n_groups_per_batch := length unique_groups in
  let* '(results, unlabeled_features, unlabeled_groups_per_batch,
         unlabeled_group_indices) := unlabeled_groups results in
  let group_indices := (group_indices ++ unlabeled_group_indices)%list in
  let total_groups_per_batch :=
    (n_groups_per_batch + unlabeled_groups_per_batch)%nat in
  let* penalty :=
    add_penalties
      (pair_penalty d labeled_features unlabeled_features n_groups_per_batch
         group_indices)
      (group_pairs total_groups_per_batch) (zero N) in
  let penalty :=
    if (1 <? total_groups_per_batch)%nat
    then div N penalty (of_Z N (n_pairs total_groups_per_batch))
    else penalty in
  Ok (results, penalty).

(** Lines 100-137.  The mapping is updated in place: the updated mapping is
    returned with the objective. *)
Definition objective (self : algorithm) (results : gmap string rvalue)
    : result (gmap string rvalue * N) :=
  let* labeled_features := rget results "features" in
  let results := delete "features" results in
  let* '(results, penalty) :=
    if is_training self
    then training_penalty (d_features self) labeled_features results
    else Ok (results, zero N) in
  let results := <["penalty" := RNum penalty]> results in
  let* y_pred := rget results "y_pred" in
  let* y_true := rget results "y_true" in
  let* avg_loss := loss_compute self y_pred y_true in
  Ok (results, add N avg_loss (mul N penalty (penalty_weight self))).

End DeepCORAL.

Arguments tensor : clear implicits.
Arguments rvalue : clear implicits.
Arguments algorithm : clear implicits.

(** *** [objective] as it acts on the mapping

    [results] is a dictionary that [objective] updates in place, so that
    the caller sees the updates of a call that raises as well.  The
    functions below follow lines 100-137 again and give, with the outcome
    of the call, the mapping as the call leaves it. *)

Section InPlace.
Context {N : numbers}.

(** Lines 109-115. *)
Definition unlabeled_groups_run (results : gmap string (rvalue N))
    : gmap string (rvalue N)
      * result (option (rvalue N) * nat * list (list nat)) :=
  match results !! "unlabeled_features" with
  | Some unlabeled_features =>
      let results := delete "unlabeled_features" results in
      (results,
       let* ug := rget results "unlabeled_g" in
       let* ug := as_groups ug in
       let '(unlabeled_unique_groups, unlabeled_group_indices) :=
         split_into_groups ug in
       Ok (Some unlabeled_features, length unlabeled_unique_groups,
           unlabeled_group_indices))
  | None => (results, Ok (None, 0%nat, []))
  end.

(** Lines 105-126. *)
Definition training_penalty_run (d : nat) (labeled_features : rvalue N)
    (results : gmap string (rvalue N))
    : gmap string (rvalue N) * result N :=
  match (let* g := rget results "g" in as_groups g) with
  | Raise e => (results, Raise e)
  | Ok g =>
      let '(unique_groups, group_indices) := split_into_groups g in
      let n_groups_per_batch := length unique_groups in
      let '(results, unlabeled) := unlabeled_groups_run results in
      (results,
       let* '(unlabeled_features, unlabeled_groups_per_batch,
              unlabeled_group_indices) := unlabeled in
       let group_indices := (group_indices ++ unlabeled_group_indices)%list in
       let total_groups_per_batch :=
         (n_groups_per_batch + unlabeled_groups_per_batch)%nat in
       let* penalty :=
         add_penalties
           (pair_penalty d labeled_features unlabeled_features
              n_groups_per_batch group_indices)
           (group_pairs total_groups_per_batch) (zero N) in
       Ok (if (1 <? total_groups_per_batch)%nat
           then div N penalty (of_Z N (n_pairs total_groups_per_batch))
           else penalty))
  end.

(** Lines 100-137. *)
Definition objective_run (self : algorithm N)
    (results : gmap string (rvalue N))
    : gmap string (rvalue N) * result N :=
  match results !! "features" with
  | None => (results, Raise (KeyError (VStr "features")))
  | Some labeled_features =>
      let results := delete "features" results in
      let '(results, penalty) :=
        if is_training self
        then training_penalty_run (d_features self) labeled_features results
        else (results, Ok (zero N)) in
      match penalty with
      | Raise e => (results, Raise e)
      | Ok penalty =>
          let results := <["penalty" := RNum penalty]> results in
          (results,
           let* y_pred := rget results "y_pred" in
           let* y_true := rget results "y_true" in
           let* avg_loss := loss_compute self y_pred y_true in
           Ok (add N avg_loss (mul N penalty (penalty_weight self))))
      end
  end.

(** What a call returns, from the mapping it leaves and its outcome. *)
Definition returned {A B : Type} (run : A * result B) : result (A * B) :=
  match run.2 with
  | Ok b => Ok (run.1, b)
  | Raise e => Raise e
  end.

End InPlace.

(** ** [process_batch] (deepCORAL.py, lines 73-98) and [__init__] *)

(** What [process_batch] uses of [self]: the two parts of the model and the
    grouper, which are external to these sources.  [X] is the type of the
    inputs of a batch. *)
Record model (N : numbers) (X : Type) : Type := {
  featurizer : X -> tensor N;
  classifier : tensor N -> tensor N;
  metadata_to_group : rvalue N -> list Z
}.
Arguments featurizer {N X} _ _.
Arguments classifier {N X} _ _.
Arguments metadata_to_group {N X} _ _.

(** Lines 73-98.  A batch is [(x, y_true, metadata)], an unlabeled batch
    [(x, metadata)]; moving a tensor to the device does not change it. *)
Definition process_batch {N : numbers} {X : Type} (self : model N X)
    (batch : X * rvalue N * rvalue N)
    (unlabeled_batch : option (X * rvalue N)) : gmap string (rvalue N) :=
  let '(x, y_true, metadata) := batch in
  let g := metadata_to_group self metadata in
  let features := featurizer self x in
  let outputs := classifier self features in
  let results : gmap string (rvalue N) :=
    <["features" := RTensor features]>
    (<["metadata" := metadata]>
    (<["y_pred" := RTensor outputs]>
    (<["y_true" := y_true]>
    (<["g" := RGroups g]> ∅)))) in
  match unlabeled_batch with
  | Some (x, metadata) =>
      <["unlabeled_g" := RGroups (metadata_to_group self metadata)]>
      (<["unlabeled_features" := RTensor (featurizer self x)]> results)
  | None => results
  end.

(** Lines 28-31 of [__init__]: the checks of the configuration. *)
Definition check_config (config : dict) : result unit :=
  let* train_loader := getattr config "train_loader" in
  let* _ := py_assert (py_eq train_loader (VStr "group")) "" in
  let* uniform_over_groups := getattr config "uniform_over_groups" in
  let* _ := py_assert (truthy uniform_over_groups) "" in
  let* distinct_groups := getattr config "distinct_groups" in
  py_assert (truthy distinct_groups) "".

(** ** Auxiliary definitions for the statements *)

(** [key not in d or d[key] is None] (lines 123 and 130) *)
Definition unset (d : dict) (k : string) : bool :=
  match dict_get d k with
  | None | Some VNone => true
  | Some _ => false
  end.

(** One entry merged without [force_compatibility]. *)
Definition fill1 (d : dict) (k : string) (v : value) : dict :=
  if unset d k then dict_set d k v else d.

Fixpoint fills (d : dict) (items : dict) : dict :=
  match items with
  | [] => d
  | (k, v) :: rest => fills (fill1 d k v) rest
  end.

(** The entry [(k, v)] has nothing left to fill in [d]. *)
Definition settled (d : dict) (k : string) (v : value) : bool :=
  match dict_get d k with
  | Some w => negb (is_none w) || is_none v
  | None => false
  end.

(** [d[k]] is set (not [None]) and [d[k] != v]. *)
Definition differs (d : dict) (k : string) (v : value) : bool :=
  match dict_get d k with
  | Some w => negb (is_none w) && py_ne w v
  | None => false
  end.

(** Some sub-entry of a nested dictionary of the template is set in the
    configuration's dictionary to a different value. *)
Definition kwargs_conflict (d kwargs : dict) : bool :=
  existsb (fun kv => differs d kv.1 kv.2) kwargs.

Definition entry_conflict (c : dict) (k : string) (v : value) : bool :=
  match v with
  | VDict kwargs =>
      match dict_get c k with
      | Some (VDict d) => kwargs_conflict d kwargs
      | _ => false
      end
  | _ => differs c k v
  end.

(** Some entry of the template, or some sub-entry of one of its nested
    dictionaries, is set in the configuration to a different value. *)
Definition conflict (config template : dict) : bool :=
  existsb (fun kv => entry_conflict config kv.1 kv.2) template.

(** The configuration holds a dictionary wherever the template has a
    nested dictionary with entries ("config[key] expected to be a kwarg
    dict", line 128). *)
Definition kwargs_ready (config template : dict) : bool :=
  forallb (fun '(k, v) =>
             match v with
             | VDict (_ :: _) =>
                 match dict_get config k with
                 | Some (VDict _) => true
                 | _ => false
                 end
             | _ => true
             end) template.

(** Keys are unique in the template and in its nested dictionaries, as in
    any Python dictionary. *)
Definition unique_keys (template : dict) : bool :=
  bool_decide (NoDup (keys template)) &&
  forallb (fun kv => match kv.2 with
                     | VDict kwargs => bool_decide (NoDup (keys kwargs))
                     | _ => true
                     end) template.

(** Every field set in [d] has the same value in [d']. *)
Definition keeps (d d' : dict) : Prop :=
  forall k w, dict_get d k = Some w -> is_none w = false ->
              dict_get d' k = Some w.

(** The same for a configuration, whose fields may be nested option
    dictionaries: those keep their set sub-fields. *)
Definition keeps_config (c c' : dict) : Prop :=
  forall k w, dict_get c k = Some w -> is_none w = false ->
    match w with
    | VDict d => exists d', dict_get c' k = Some (VDict d') /\ keeps d d'
    | _ => dict_get c' k = Some w
    end.

(** One iteration of the loop of lines 121-133 without
    [force_compatibility]. *)
Definition merge1 (c : dict) (k : string) (v : value) : result dict :=
  match v with
  | VDict [] => Ok c
  | VDict kwargs =>
      match dict_get c k with
      | None => Raise (KeyError (VStr k))
      | Some (VDict d) => Ok (dict_set c k (VDict (fills d kwargs)))
      | Some _ => Raise TypeError
      end
  | _ => Ok (fill1 c k v)
  end.

(** The template entry [(k, v)] has nothing left to fill in [c]. *)
Definition settled_config (c : dict) (k : string) (v : value) : bool :=
  match v with
  | VDict [] => true
  | VDict kwargs =>
      match dict_get c k with
      | Some (VDict d) => forallb (fun kv => settled d kv.1 kv.2) kwargs
      | _ => false
      end
  | _ => settled c k v
  end.

(** What [d[k]] is once [items] has been merged into [d]: the entry of
    [items] where [d] had nothing set, else what [d] had. *)
Definition filled (d items : dict) (k : string) : option value :=
  match dict_get items k with
  | Some v => if unset d k then Some v else dict_get d k
  | None => dict_get d k
  end.

(** The same for a configuration and a template: an entry of the template
    that is a dictionary is merged into the configuration's dictionary. *)
Definition merged (c t : dict) (k : string) : option value :=
  match dict_get t k with
  | Some (VDict kwargs) =>
      match dict_get c k with
      | Some (VDict d) => Some (VDict (fills d kwargs))
      | other => other
      end
  | Some v => if unset c k then Some v else dict_get c k
  | None => dict_get c k
  end.

(** A required field is set: present and not [None]. *)
Definition is_set (c : dict) (field : string) : bool :=
  match dict_get c field with
  | Some v => negb (is_none v)
  | None => false
  end.

(** *** The template each layer of the cascade applies

    [None] where the layer applies none. *)

Definition lookup_template (table : gmap string dict) (v : value)
    : option dict :=
  match v with VStr s => table !! s | _ => None end.

(** Lines 39-42: [dataset_defaults[config.dataset]] *)
Definition dataset_template (P : presets) (c : dict) : option dict :=
  v ← dict_get c "dataset"; lookup_template (dataset_defaults P) v.

(** Lines 45-49: [split_defaults[config.dataset][config.split_scheme]],
    when both keys are there *)
Definition split_template (P : presets) (c : dict) : option dict :=
  match dict_get c "dataset", dict_get c "split_scheme" with
  | Some (VStr dataset), Some (VStr split_scheme) =>
      by_scheme ← split_defaults P !! dataset; by_scheme !! split_scheme
  | _, _ => None
  end.

(** Lines 52-55: [algorithm_defaults[config.algorithm]] *)
Definition algorithm_template (P : presets) (c : dict) : option dict :=
  v ← dict_get c "algorithm"; lookup_template (algorithm_defaults P) v.

(** Lines 63-66: [model_defaults[config.model]], when a model is chosen *)
Definition model_template (P : presets) (c : dict) : option dict :=
  v ← dict_get c "model";
  if truthy v then lookup_template (model_defaults P) v else None.

(** Lines 69-72: [scheduler_defaults[config.scheduler]], when a scheduler is
    chosen *)
Definition scheduler_template (P : presets) (c : dict) : option dict :=
  v ← dict_get c "scheduler";
  if truthy v then lookup_template (scheduler_defaults P) v else None.

(** The count is [None] or equal to 1. *)
Definition count_ok (v : value) : bool := is_none v || py_eq v (VInt 1).

(** Lines 15-16 and 23-24 on one count. *)
Definition set_count (c : dict) (key : string) (v : value) : dict :=
  if is_none v then setattr c key (VInt 1) else c.

(** *** Two number systems to run the Deep CORAL code on *)

(** IEEE binary64 numbers. *)
Definition float_of_Z (z : Z) : float :=
  match z with
  | Z0 => PrimFloat.zero
  | Zpos _ => PrimFloat.of_uint63 (Uint63.of_Z z)
  | Zneg p => PrimFloat.opp (PrimFloat.of_uint63 (Uint63.of_Z (Zpos p)))
  end.

Definition floats : numbers := {|
  num := float;
  zero := PrimFloat.zero;
  add := PrimFloat.add;
  sub := PrimFloat.sub;
  mul := PrimFloat.mul;
  div := PrimFloat.div;
  of_Z := float_of_Z
|}.

(** Exact rational numbers, with an undefined value for a division by
    zero, which every operation hands on. *)
Definition lift2 (f : Qc -> Qc -> Qc) (a b : option Qc) : option Qc :=
  match a, b with
  | Some x, Some y => Some (f x y)
  | _, _ => None
  end.

Definition exact_div (a b : option Qc) : option Qc :=
  match a, b with
  | Some x, Some y => if Qc_eq_dec y (Q2Qc 0) then None else Some (Qcdiv x y)
  | _, _ => None
  end.

Definition exact : numbers := {|
  num := option Qc;
  zero := Some (Q2Qc 0);
  add := lift2 Qcplus;
  sub := lift2 Qcminus;
  mul := lift2 Qcmult;
  div := exact_div;
  of_Z := fun z => Some (Q2Qc (inject_Z z))
|}.

(** An arithmetic that is exact on its defined values: they are closed
    under the operations, a division by a non-zero integer included, and
    they satisfy the identities below. *)
Record exact_arithmetic (N : numbers) (defined : N -> Prop) : Prop := {
  defined_zero : defined (zero N);
  defined_add a b : defined a -> defined b -> defined (add N a b);
  defined_sub a b : defined a -> defined b -> defined (sub N a b);
  defined_mul a b : defined a -> defined b -> defined (mul N a b);
  defined_div a n : defined a -> n <> 0%Z -> defined (div N a (of_Z N n));
  sub_diag a : defined a -> sub N a a = zero N;
  mul_zero_zero : mul N (zero N) (zero N) = zero N;
  add_zero_zero : add N (zero N) (zero N) = zero N;
  div_zero n : n <> 0%Z -> div N (zero N) (of_Z N n) = zero N
}.

(** The integer [z] as a rational number. *)
Definition rational (z : Z) : exact := Some (Q2Qc (inject_Z z)).

(** A 2-dimensional tensor, from its rows. *)
Definition matrix {N : numbers} (rows : list (list N)) : tensor N :=
  {| ndim := 2; items := map (fun r => [r]) rows |}.

(** *** The mean pairwise penalty over the groups of a batch *)

(** The slices of [its] at the positions [idx]. *)
Definition take_items {N : numbers} (its : list (list (list N)))
    (idx : list nat) : list (list (list N)) :=
  map (fun i => nth i its []) idx.

(** The features of each group of the batch, in the order of the groups. *)
Definition group_tensors {N : numbers} (features : tensor N) (g : list Z)
    : list (tensor N) :=
  map (fun idx => {| ndim := ndim features;
                     items := take_items (items features) idx |})
      (split_into_groups g).2.

Definition no_tensor {N : numbers} : tensor N := {| ndim := 0; items := [] |}.

(** The sum of the penalties over the pairs [i < j] of groups. *)
Definition pairwise_sum {N : numbers} (d : nat) (groups : list (tensor N))
    : N :=
  fold_left (add N)
    (map (fun ij => coral_penalty2 d (view2 (nth ij.1 groups no_tensor))
                                     (view2 (nth ij.2 groups no_tensor)))
         (group_pairs (length groups)))
    (zero N).

(** The penalty of lines 118-126: the sum divided by the number of pairs
    when there are at least two groups, and 0 otherwise. *)
Definition mean_penalty {N : numbers} (d : nat) (groups : list (tensor N))
    : N :=
  if (1 <? length groups)%nat
  then div N (pairwise_sum d groups) (of_Z N (n_pairs (length groups)))
  else zero N.

(** The penalty as the specification words it: the sum divided by C(n,2),
    for any number of groups. *)
Definition mean_penalty_spec {N : numbers} (d : nat)
    (groups : list (tensor N)) : N :=
  div N (pairwise_sum d groups) (of_Z N (n_pairs (length groups))).

(** The groups of a batch: those of the labeled examples, then those of
    the unlabeled examples when there are some. *)
Definition batch_groups {N : numbers} (features : tensor N) (g : list Z)
    (unlabeled : option (tensor N * list Z)) : list (tensor N) :=
  (group_tensors features g ++
   match unlabeled with
   | Some (unlabeled_features, unlabeled_g) =>
       group_tensors unlabeled_features unlabeled_g
   | None => []
   end)%list.

(** The unlabeled part of the mapping is as [process_batch] leaves it:
    both keys or none, a group identifier for each example, features of
    the same number of dimensions as the labeled ones. *)
Definition unlabeled_ok {N : numbers} (results : gmap string (rvalue N))
    (features : tensor N) (unlabeled : option (tensor N * list Z)) : Prop :=
  match unlabeled with
  | Some (unlabeled_features, unlabeled_g) =>
      results !! "unlabeled_features" = Some (RTensor unlabeled_features) /\
      results !! "unlabeled_g" = Some (RGroups unlabeled_g) /\
      (length unlabeled_g <= length (items unlabeled_features))%nat /\
      ndim unlabeled_features = ndim features
  | None => results !! "unlabeled_features" = None
  end.

(** What [unlabeled_groups] hands on of the unlabeled examples. *)
Definition unl_value {N : numbers} (unl : option (tensor N * list Z))
    : option (rvalue N) :=
  match unl with Some (uf, _) => Some (RTensor uf) | None => None end.

Definition unl_indices {N : numbers} (unl : option (tensor N * list Z))
    : list (list nat) :=
  match unl with Some (_, ug) => (split_into_groups ug).2 | None => [] end.

(** An instance of the algorithm on floating-point numbers: penalty weight
    2, a loss that is 1.5 on every batch, features of dimension 1. *)
Definition example_algorithm (training : bool) : algorithm floats :=
  @Build_algorithm floats training 2%float (fun _ _ => Ok 1.5%float) 1.

(** A results mapping as [process_batch] builds it from a labeled batch. *)
Definition example_results (g : list Z) (features : tensor floats)
    : gmap string (rvalue floats) :=
  <["g" := RGroups g]>
  (<["y_true" := RTensor ((@matrix floats [[1%float]]))]>
  (<["y_pred" := RTensor ((@matrix floats [[0.5%float]]))]>
  (<["metadata" := RGroups g]>
  (<["features" := RTensor features]> ∅)))).

Definition example_features : tensor floats :=
  @matrix floats [[1%float]; [3%float]; [2%float]; [6%float]].


(** *** A small registry and namespace for the examples

    The repository's preset tables are not among these sources; these
    entries only serve to run the functions. *)

Definition example_presets : presets := {|
  dataset_defaults :=
    <["bare" := []]>
    {["camelyon17" :=
        [("split_scheme", VStr "official"); ("model", VStr "densenet121");
         ("model_kwargs", VDict [("pretrained", VBool false)]);
         ("loss_function", VStr "cross_entropy");
         ("val_metric", VStr "acc_avg"); ("val_metric_decreasing", VBool false);
         ("optimizer", VStr "SGD"); ("batch_size", VInt 32);
         ("n_epochs", VInt 5); ("weight_decay", VInt 0);
         ("n_groups_per_batch", VInt 2)]]};
  split_defaults :=
    {["camelyon17" :=
        {["official" :=
            [("n_epochs", VInt 10);
             ("groupby_fields", VList [VStr "hospital"])]]}]};
  algorithm_defaults :=
    <["ERM" := [("train_loader", VStr "standard");
                ("uniform_over_groups", VBool false);
                ("eval_loader", VStr "standard")]]>
    {["deepCORAL" :=
        [("train_loader", VStr "group"); ("uniform_over_groups", VBool true);
         ("distinct_groups", VBool true); ("eval_loader", VStr "standard");
         ("coral_penalty_weight", VInt 1)]]};
  loader_defaults :=
    [("loader_kwargs", VDict [("num_workers", VInt 4);
                              ("pin_memory", VBool true)]);
     ("n_groups_per_batch", VInt 4)];
  model_defaults :=
    {["densenet121" := [("model_kwargs", VDict [("pretrained", VBool true)])]]};
  scheduler_defaults :=
    {["linear_schedule_with_warmup" :=
        [("scheduler_kwargs", VDict [("num_warmup_steps", VInt 0)])]]}
|}.

(** A namespace as the argument parser builds it: every attribute is
    there, [None] or an empty dictionary unless given. *)
Definition example_config (dataset algorithm : string)
    (groupby_fields n_groups_per_batch lr : value) : dict :=
  [("dataset", VStr dataset); ("algorithm", VStr algorithm);
   ("groupby_fields", groupby_fields);
   ("n_groups_per_batch", n_groups_per_batch);
   ("unlabeled_n_groups_per_batch", VNone);
   ("lr", lr); ("split_scheme", VNone); ("model", VNone);
   ("model_kwargs", VDict []); ("scheduler", VNone);
   ("scheduler_kwargs", VDict []); ("loader_kwargs", VDict []);
   ("no_group_logging", VNone); ("train_loader", VNone);
   ("uniform_over_groups", VNone); ("batch_size", VNone);
   ("eval_loader", VNone); ("loss_function", VNone); ("val_metric", VNone);
   ("val_metric_decreasing", VNone); ("n_epochs", VNone);
   ("optimizer", VNone); ("weight_decay", VNone)].

(** The configuration resolved from the example namespace. *)
Definition example_resolved : dict :=
  match populate_defaults example_presets
          (example_config "camelyon17" "deepCORAL" from_source_domain VNone
             (VInt 1))
  with
  | Ok c' => c'
  | Raise _ => []
  end.

(** The unlabeled examples of a batch as [objective] sees them. *)
Definition unlabeled_of {N : numbers} {X : Type} (self : model N X)
    (unlabeled_batch : option (X * rvalue N)) : option (tensor N * list Z) :=
  match unlabeled_batch with
  | Some (x, metadata) =>
      Some (featurizer self x, metadata_to_group self metadata)
  | None => None
  end.

(** A model on floating-point numbers for the examples: the inputs are
    the features, the classifier hands them on, the metadata are the group
    identifiers. *)
Definition example_model : model floats (tensor floats) := {|
  featurizer := fun x => x;
  classifier := fun features => features;
  metadata_to_group := fun metadata =>
    match metadata with RGroups g => g | _ => [] end
|}.


(** The arithmetic on 0 that the penalty of a tensor with itself goes
    through, for [d] feature columns: the square of 0, the sum of zeros, and
    their mean over [d] and over [d * d] entries. *)
Record zero_arithmetic (N : numbers) (d : nat) : Prop := {
  zero_mul : mul N (zero N) (zero N) = zero N;
  zero_add : add N (zero N) (zero N) = zero N;
  zero_mean : div N (zero N) (of_Z N (Z.of_nat d)) = zero N;
  zero_mean_square : div N (zero N) (of_Z N (Z.of_nat (d * d))) = zero N
}.

(** The penalty [objective] computes (lines 105-128): the mean penalty
    over the groups of the batch in training mode, 0 otherwise. *)
Definition computed_penalty {N : numbers} (self : algorithm N)
    (features : tensor N) (g : list Z)
    (unlabeled : option (tensor N * list Z)) : N :=
  if is_training self
  then mean_penalty (d_features self) (batch_groups features g unlabeled)
  else zero N.

(** A labeled batch of four examples in two groups and an unlabeled batch
    of two examples in one group, as [process_batch] hands them on. *)
Definition example_batch_results : gmap string (rvalue floats) :=
  process_batch example_model
    (example_features, RTensor (@matrix floats [[1%float]]),
     RGroups [0; 0; 1; 1]%Z)
    (Some (@matrix floats [[4%float]; [8%float]], RGroups [7; 7]%Z)).

(** A namespace in which the user has chosen the grouped loader
    [train_loader], with groups drawn uniformly and distinct. *)
Definition example_group_config (algorithm : string) (train_loader : value)
    : dict :=
  setattr
    (setattr
       (setattr
          (example_config "camelyon17" algorithm from_source_domain VNone
             (VInt 1))
          "train_loader" train_loader)
       "uniform_over_groups" (VBool true))
    "distinct_groups" (VBool true).

(** The configuration [populate_defaults] returns for it; the empty one
    when it raises. *)
Definition example_group_resolved (algorithm : string) (train_loader : value)
    : dict :=
  match populate_defaults example_presets
          (example_group_config algorithm train_loader)
  with
  | Ok c' => c'
  | Raise _ => []
  end.

(** * Properties *)

(** ** Runs of the definitions *)

Example py_eq_true_1 : py_eq (VBool true) (VInt 1) = true.
Proof. reflexivity. Qed.

Example py_eq_dict_order :
  py_eq (VDict [("a", VInt 1); ("b", VInt 2)])
        (VDict [("b", VInt 2); ("a", VInt 1)]) = true.
Proof. reflexivity. Qed.

Example populate_config_ex :
  populate_config
    [("lr", VNone); ("model", VStr "resnet"); ("model_kwargs", VDict [("pretrained", VBool false)])]
    (Some [("lr", VInt 3); ("model", VStr "bert");
           ("model_kwargs", VDict [("pretrained", VBool true); ("depth", VInt 18)]);
           ("n_epochs", VInt 5)])
    false
  = Ok [("lr", VInt 3); ("model", VStr "resnet");
        ("model_kwargs", VDict [("pretrained", VBool false); ("depth", VInt 18)]);
        ("n_epochs", VInt 5)].
Proof. reflexivity. Qed.


(** ** Dictionaries *)

Lemma dict_get_set_eq d k v : dict_get (dict_set d k v) k = Some v.
Proof.
  induction d as [|[k' v'] d IH]; simpl.
  - by rewrite String.eqb_refl.
  - destruct (String.eqb k' k) eqn:E; simpl; rewrite E; done.
Qed.

Lemma dict_get_set_ne d k k' v :
  k <> k' -> dict_get (dict_set d k v) k' = dict_get d k'.
Proof.
  intros Hne. induction d as [|[k0 v0] d IH]; simpl.
  - destruct (String.eqb_spec k k'); done.
  - destruct (String.eqb_spec k0 k) as [->|]; simpl.
    + destruct (String.eqb_spec k k'); done.
    + destruct (String.eqb_spec k0 k'); done.
Qed.

Lemma dict_set_same d k v : dict_get d k = Some v -> dict_set d k v = d.
Proof.
  induction d as [|[k' v'] d IH]; simpl; [done|].
  destruct (String.eqb_spec k' k) as [->|]; intros H.
  - by inversion H.
  - by rewrite IH.
Qed.

Lemma dict_get_Some_elem d k v : dict_get d k = Some v -> (k, v) ∈ d.
Proof.
  induction d as [|[k' v'] d IH]; simpl; [done|].
  destruct (String.eqb_spec k' k) as [->|]; intros H.
  - inversion H. left.
  - right. auto.
Qed.

Lemma dict_get_None d k : dict_get d k = None <-> k ∉ keys d.
Proof.
  induction d as [|[k' v'] d IH]; simpl.
  - split; [intros _; apply not_elem_of_nil | done].
  - rewrite not_elem_of_cons.
    destruct (String.eqb_spec k' k) as [->|]; split; try done.
    + intros [? _]; done.
    + intros H. split; [done | by apply IH].
    + intros [_ H]. by apply IH.
Qed.

Lemma dict_get_elem d k v :
  NoDup (keys d) -> (k, v) ∈ d -> dict_get d k = Some v.
Proof.
  induction d as [|[k' v'] d IH]; simpl.
  - intros _ H. by apply elem_of_nil in H.
  - rewrite NoDup_cons. intros [Hk Hd] [H|H]%elem_of_cons.
    + inversion H; subst. by rewrite String.eqb_refl.
    + destruct (String.eqb_spec k' k) as [->|]; [|auto].
      exfalso. apply Hk. unfold keys. apply list_elem_of_fmap.
      by exists (k, v).
Qed.

(** ** Merging without [force_compatibility] *)

Lemma unset_false_get d k :
  unset d k = false -> exists w, dict_get d k = Some w /\ is_none w = false.
Proof.
  unfold unset. destruct (dict_get d k) as [[]|]; try done; eauto.
Qed.

Lemma fill1_get_eq d k v :
  dict_get (fill1 d k v) k = if unset d k then Some v else dict_get d k.
Proof.
  unfold fill1. destruct (unset d k); [apply dict_get_set_eq | done].
Qed.

Lemma fill1_get_ne d k k' v :
  k <> k' -> dict_get (fill1 d k v) k' = dict_get d k'.
Proof.
  intros. unfold fill1. destruct (unset d k); [by apply dict_get_set_ne | done].
Qed.

Lemma fill1_settled d k v : settled (fill1 d k v) k v = true.
Proof.
  unfold settled. rewrite fill1_get_eq.
  destruct (unset d k) eqn:E.
  - by destruct v.
  - apply unset_false_get in E as (w & -> & ->). done.
Qed.

Lemma settled_fill1 d k v k' v' :
  settled d k v = true -> settled (fill1 d k' v') k v = true.
Proof.
  unfold settled. destruct (decide (k' = k)) as [->|Hne].
  - rewrite fill1_get_eq. unfold unset.
    destruct (dict_get d k) as [w|]; [|done].
    destruct w; simpl; try done.
    intros ->. by destruct v'.
  - by rewrite fill1_get_ne.
Qed.

Lemma fill1_id d k v : settled d k v = true -> fill1 d k v = d.
Proof.
  unfold settled, fill1, unset.
  destruct (dict_get d k) as [w|] eqn:E; [|done].
  destruct w; simpl; try done.
  destruct v; simpl; try done. intros _. by apply dict_set_same.
Qed.

Lemma settled_fills d items k v :
  settled d k v = true -> settled (fills d items) k v = true.
Proof.
  revert d. induction items as [|[k' v'] items IH]; simpl; [done|].
  intros d H. by apply IH, settled_fill1.
Qed.

Lemma fills_settled d items :
  Forall (fun kv => settled (fills d items) kv.1 kv.2 = true) items.
Proof.
  revert d. induction items as [|[k v] items IH]; intros d; simpl.
  - constructor.
  - constructor; [|apply IH].
    simpl. apply settled_fills, fill1_settled.
Qed.

Lemma fills_id d items :
  Forall (fun kv => settled d kv.1 kv.2 = true) items -> fills d items = d.
Proof.
  induction items as [|[k v] items IH]; simpl; [done|].
  intros H. apply Forall_cons in H as [H1 H2]. simpl in H1.
  rewrite fill1_id; auto.
Qed.

Lemma fills_idempotent d items : fills (fills d items) items = fills d items.
Proof. apply fills_id, fills_settled. Qed.

Lemma keeps_refl d : keeps d d.
Proof. by intros k w. Qed.

Lemma keeps_trans d1 d2 d3 : keeps d1 d2 -> keeps d2 d3 -> keeps d1 d3.
Proof. intros H1 H2 k w Hk Hw. apply H2; auto. Qed.

Lemma keeps_fill1 d k v : keeps d (fill1 d k v).
Proof.
  intros k' w Hk Hw. destruct (decide (k = k')) as [->|Hne].
  - rewrite fill1_get_eq. unfold unset. rewrite Hk. by destruct w.
  - by rewrite fill1_get_ne.
Qed.

Lemma keeps_fills d items : keeps d (fills d items).
Proof.
  revert d. induction items as [|[k v] items IH]; intros d; simpl.
  - apply keeps_refl.
  - eapply keeps_trans; [apply keeps_fill1 | apply IH].
Qed.

(** The loop over [val.items()] without [force_compatibility] is [fills]. *)
Lemma populate_kwargs_fills key val d items :
  populate_kwargs false key val (VDict d) items = Ok (VDict (fills d items)).
Proof.
  revert d. induction items as [|[k v] items IH]; intros d; simpl; [done|].
  unfold fill1, unset.
  destruct (dict_get d k) as [w|]; [|apply IH].
  rewrite andb_false_r. destruct w; apply IH.
Qed.

Lemma populate_kwargs_not_dict force key val d_key kv items :
  is_dict d_key = false ->
  populate_kwargs force key val d_key (kv :: items) = Raise TypeError.
Proof. destruct kv, d_key; simpl; done. Qed.

Lemma populate_items_cons c k v rest :
  populate_items false c ((k, v) :: rest) =
  let* c' := merge1 c k v in populate_items false c' rest.
Proof.
  unfold merge1, fill1, unset. simpl.
  destruct v as [| | | | |kwargs];
    try (destruct (dict_get c k) as [w|]; [|done];
         rewrite andb_false_r; by destruct w).
  destruct kwargs as [|kv kwargs]; [done|].
  destruct (dict_get c k) as [w|]; [|done].
  destruct (is_dict w) eqn:E.
  - destruct w; try done. by rewrite populate_kwargs_fills.
  - rewrite populate_kwargs_not_dict by done. by destruct w.
Qed.

(** What a successful iteration did. *)
Lemma merge1_cases c k v c' :
  merge1 c k v = Ok c' ->
  (v = VDict [] /\ c' = c) \/
  (exists kwargs d, v = VDict kwargs /\ dict_get c k = Some (VDict d) /\
                    c' = dict_set c k (VDict (fills d kwargs))) \/
  (is_dict v = false /\ c' = fill1 c k v).
Proof.
  unfold merge1. intros H.
  destruct v as [| | | | |kwargs];
    try (right; right; split; [done | congruence]).
  destruct kwargs as [|kv kwargs]; [left; split; congruence|].
  destruct (dict_get c k) as [w|] eqn:E; [|done].
  destruct w; try done.
  right; left. eexists _, _. repeat split; congruence.
Qed.

Lemma keeps_config_refl c : keeps_config c c.
Proof.
  intros k w Hk Hw. destruct w; try done.
  eexists. split; [done | apply keeps_refl].
Qed.

Lemma keeps_config_trans c1 c2 c3 :
  keeps_config c1 c2 -> keeps_config c2 c3 -> keeps_config c1 c3.
Proof.
  intros H1 H2 k w Hk Hw. specialize (H1 k w Hk Hw).
  destruct w; try (by apply (H2 k _ H1)).
  destruct H1 as (d' & Hk' & Hd).
  destruct (H2 k _ Hk' eq_refl) as (d'' & Hk'' & Hd').
  exists d''. split; [done | by eapply keeps_trans].
Qed.

Lemma keeps_keeps_config c c' : keeps c c' -> keeps_config c c'.
Proof.
  intros H k w Hk Hw. specialize (H k w Hk Hw).
  destruct w; try done. eexists. split; [done | apply keeps_refl].
Qed.

Lemma merge1_keeps c k v c' : merge1 c k v = Ok c' -> keeps_config c c'.
Proof.
  intros [[_ ->]|[(kwargs & d & _ & E & ->)|[_ ->]]]%merge1_cases.
  - apply keeps_config_refl.
  - intros k' w Hk Hw. destruct (decide (k = k')) as [<-|Hne].
    + rewrite E in Hk. injection Hk as <-.
      eexists. split; [apply dict_get_set_eq | apply keeps_fills].
    + rewrite dict_get_set_ne by done.
      destruct w; try done. eexists. split; [done | apply keeps_refl].
  - apply keeps_keeps_config, keeps_fill1.
Qed.

Lemma merge1_get_ne c k v c' k' :
  merge1 c k v = Ok c' -> k <> k' -> dict_get c' k' = dict_get c k'.
Proof.
  intros [[_ ->]|[(kwargs & d & _ & E & ->)|[_ ->]]]%merge1_cases Hne.
  - done.
  - by apply dict_get_set_ne.
  - by apply fill1_get_ne.
Qed.

Lemma settled_config_ext c c' k v :
  dict_get c' k = dict_get c k ->
  settled_config c' k v = settled_config c k v.
Proof. unfold settled_config, settled. by intros ->. Qed.

Lemma forallb_Forall_true {A} (f : A -> bool) (l : list A) :
  forallb f l = true <-> Forall (fun x => f x = true) l.
Proof.
  induction l as [|x l IH]; simpl.
  - split; [constructor | done].
  - rewrite andb_true_iff, Forall_cons, IH. done.
Qed.

Lemma forallb_settled_fills d items kwargs :
  forallb (fun kv => settled d kv.1 kv.2) kwargs = true ->
  forallb (fun kv => settled (fills d items) kv.1 kv.2) kwargs = true.
Proof.
  rewrite !forallb_forall. intros H kv Hin.
  by apply settled_fills, H.
Qed.

Lemma merge1_settled c k v c' :
  merge1 c k v = Ok c' -> settled_config c' k v = true.
Proof.
  intros [[-> ->]|[(kwargs & d & -> & E & ->)|[Hv ->]]]%merge1_cases.
  - done.
  - unfold settled_config. rewrite dict_get_set_eq.
    destruct kwargs; [done|].
    apply forallb_Forall_true, fills_settled.
  - destruct v; try done; apply fill1_settled.
Qed.

Lemma settled_config_merge1 c k v k' v' c' :
  settled_config c k v = true -> merge1 c k' v' = Ok c' ->
  settled_config c' k v = true.
Proof.
  intros Hs Hm. destruct (decide (k' = k)) as [->|Hne].
  2: { rewrite <- Hs. apply settled_config_ext.
       by eapply merge1_get_ne. }
  apply merge1_cases in Hm
    as [[_ ->]|[(kwargs' & d & _ & E & ->)|[Hv ->]]]; [done| |].
  - unfold settled_config, settled in *.
    rewrite dict_get_set_eq. rewrite E in Hs.
    destruct v as [| | | | |kwargs]; try done.
    destruct kwargs; [done|]. by apply forallb_settled_fills.
  - destruct v as [| | | | |kwargs]; try (by apply settled_fill1).
    revert Hs. unfold settled_config. destruct kwargs; [done|].
    unfold fill1, unset.
    destruct (dict_get c k) as [w|] eqn:E; [|done].
    destruct w; try done. by rewrite E.
Qed.

Lemma merge1_id c k v : settled_config c k v = true -> merge1 c k v = Ok c.
Proof.
  unfold settled_config, merge1. intros H.
  destruct v as [| | | | |kwargs]; try (by rewrite fill1_id).
  destruct kwargs as [|kv kwargs]; [done|].
  destruct (dict_get c k) as [w|] eqn:E; [|done].
  destruct w as [| | | | |d]; try done.
  rewrite fills_id; [by rewrite dict_set_same|].
  by apply forallb_Forall_true in H.
Qed.

Lemma populate_items_keeps c items c' :
  populate_items false c items = Ok c' -> keeps_config c c'.
Proof.
  revert c. induction items as [|[k v] items IH]; intros c.
  - intros [= <-]. apply keeps_config_refl.
  - rewrite populate_items_cons.
    destruct (merge1 c k v) as [c1|] eqn:E; [|done]. simpl.
    intros H. eapply keeps_config_trans; [by eapply merge1_keeps | by apply IH].
Qed.

Lemma settled_config_populate_items c items c' k v :
  settled_config c k v = true -> populate_items false c items = Ok c' ->
  settled_config c' k v = true.
Proof.
  revert c. induction items as [|[k' v'] items IH]; intros c Hs.
  - by intros [= <-].
  - rewrite populate_items_cons.
    destruct (merge1 c k' v') as [c1|] eqn:E; [|done]. simpl.
    apply IH. by eapply settled_config_merge1.
Qed.

Lemma populate_items_settled c items c' :
  populate_items false c items = Ok c' ->
  Forall (fun kv => settled_config c' kv.1 kv.2 = true) items.
Proof.
  revert c. induction items as [|[k v] items IH]; intros c.
  - constructor.
  - rewrite populate_items_cons.
    destruct (merge1 c k v) as [c1|] eqn:E; [|done]. simpl.
    intros H. constructor; [|by eapply IH].
    simpl. eapply settled_config_populate_items; [|done].
    by eapply merge1_settled.
Qed.

Lemma populate_items_id c items :
  Forall (fun kv => settled_config c kv.1 kv.2 = true) items ->
  populate_items false c items = Ok c.
Proof.
  induction items as [|[k v] items IH]; [done|].
  intros [H1 H2]%Forall_cons. simpl in H1.
  rewrite populate_items_cons, merge1_id by done. simpl. auto.
Qed.

(** ** Populating twice *)

Example populate_config_twice :
  let C := [("lr", VNone); ("model_kwargs", VDict [("pretrained", VBool false)])] in
  let T := Some [("lr", VInt 3);
                 ("model_kwargs", VDict [("pretrained", VBool true); ("depth", VInt 18)])] in
  let C' := [("lr", VInt 3);
             ("model_kwargs", VDict [("pretrained", VBool false); ("depth", VInt 18)])] in
  populate_config C T false = Ok C' /\ populate_config C' T false = Ok C'.
Proof. split; reflexivity. Qed.

(** ** C1: what is filled *)

Lemma unset_ext d d' k : dict_get d' k = dict_get d k -> unset d' k = unset d k.
Proof. unfold unset. by intros ->. Qed.

Lemma fills_get d items k :
  NoDup (keys items) -> dict_get (fills d items) k = filled d items k.
Proof.
  revert d. induction items as [|[k0 v0] items IH]; intros d; [done|].
  simpl. rewrite NoDup_cons. intros [Hk0 Hnd].
  rewrite IH by done. unfold filled. simpl.
  destruct (String.eqb_spec k0 k) as [->|Hne].
  - apply dict_get_None in Hk0. rewrite Hk0. apply fill1_get_eq.
  - rewrite (unset_ext d (fill1 d k0 v0)), fill1_get_ne; auto using fill1_get_ne.
Qed.

Lemma merged_ext c c' t k :
  dict_get c' k = dict_get c k -> merged c' t k = merged c t k.
Proof. unfold merged, unset. by intros ->. Qed.

Lemma kwargs_ready_ext c c' t :
  (forall k, k ∈ keys t -> dict_get c' k = dict_get c k) ->
  kwargs_ready c' t = kwargs_ready c t.
Proof.
  induction t as [|[k v] t IH]; [done|]. intros H. simpl.
  rewrite IH by (intros; apply H; by right).
  rewrite (H k) by left. done.
Qed.

Lemma kwargs_ready_cons c k v t :
  kwargs_ready c ((k, v) :: t) = kwargs_ready c [(k, v)] && kwargs_ready c t.
Proof. unfold kwargs_ready. simpl. by rewrite andb_true_r. Qed.

Lemma kwargs_ready_merge1 c k v :
  kwargs_ready c [(k, v)] = true -> exists c', merge1 c k v = Ok c'.
Proof.
  unfold merge1. simpl. destruct v as [| | | | |kwargs]; eauto.
  destruct kwargs; eauto.
  destruct (dict_get c k) as [w|]; [|done]. destruct w; eauto; done.
Qed.

Lemma populate_items_merged c t :
  NoDup (keys t) -> kwargs_ready c t = true ->
  exists c', populate_items false c t = Ok c' /\
             forall k, dict_get c' k = merged c t k.
Proof.
  revert c. induction t as [|[k0 v0] t IH]; intros c.
  - intros _ _. by exists c.
  - simpl keys. rewrite NoDup_cons. intros [Hk0 Hnd] Hr.
    rewrite kwargs_ready_cons in Hr.
    apply andb_true_iff in Hr as [Hr0 Hr].
    destruct (kwargs_ready_merge1 _ _ _ Hr0) as [c1 Hm].
    assert (Hother : forall k, k ∈ keys t -> dict_get c1 k = dict_get c k).
    { intros k Hk. eapply merge1_get_ne; [done|]. by intros ->. }
    destruct (IH c1) as (c' & Hc' & Hget); [done| |].
    { by rewrite (kwargs_ready_ext c). }
    exists c'. split.
    { rewrite populate_items_cons, Hm. done. }
    intros k. rewrite Hget. destruct (decide (k0 = k)) as [<-|Hne].
    + unfold merged at 1. apply dict_get_None in Hk0. rewrite Hk0.
      unfold merged. simpl. rewrite String.eqb_refl.
      apply merge1_cases in Hm
        as [[-> ->]|[(kwargs & d & -> & E & ->)|[Hv ->]]].
      * destruct (dict_get c k0) as [w|]; [|done]. by destruct w.
      * by rewrite dict_get_set_eq, E.
      * rewrite fill1_get_eq. by destruct v0.
    + rewrite (merged_ext c c1) by (by eapply merge1_get_ne).
      unfold merged. simpl. by destruct (String.eqb_spec k0 k).
Qed.

Lemma unique_keys_cons k v t :
  unique_keys ((k, v) :: t) = true ->
  (k ∉ keys t) /\ unique_keys t = true /\
  (forall kwargs, v = VDict kwargs -> NoDup (keys kwargs)).
Proof.
  unfold unique_keys. simpl.
  rewrite !andb_true_iff, !bool_decide_eq_true, NoDup_cons.
  intros [[Hk Hnd] [Hv Ht]]. repeat split; try done.
  intros kwargs ->. by apply bool_decide_eq_true in Hv.
Qed.

Lemma unique_keys_NoDup t : unique_keys t = true -> NoDup (keys t).
Proof.
  unfold unique_keys. rewrite andb_true_iff, bool_decide_eq_true. by intros [].
Qed.

Lemma unique_keys_nested t k kwargs :
  unique_keys t = true -> dict_get t k = Some (VDict kwargs) ->
  NoDup (keys kwargs).
Proof.
  induction t as [|[k0 v0] t IH]; [done|].
  intros (_ & Ht & Hv)%unique_keys_cons. simpl.
  destruct (String.eqb k0 k); [|by apply IH].
  intros [= ->]. by apply Hv.
Qed.

(** C1, as the code has it.  When the configuration holds a dictionary
    wherever the template has a nested dictionary with entries,
    [populate_config] returns, and in the configuration it returns: a key
    of the template whose value is not a dictionary has the template's
    value where the configuration had it absent or [None], and its former
    value otherwise; at a key whose template value is a dictionary the
    configuration's dictionary has each sub-key merged in that same way;
    every other key is as before. *)
Theorem populate_config_fills (C T : dict) :
  unique_keys T = true -> kwargs_ready C T = true ->
  exists C', populate_config C (Some T) false = Ok C' /\
    forall k,
      match dict_get T k with
      | None => dict_get C' k = dict_get C k
      | Some (VDict kwargs) =>
          match dict_get C k with
          | Some (VDict d) =>
              exists d', dict_get C' k = Some (VDict d') /\
                         forall sk, dict_get d' sk = filled d kwargs sk
          | _ => dict_get C' k = dict_get C k
          end
      | Some v => dict_get C' k = if unset C k then Some v else dict_get C k
      end.
Proof.
  intros Hu Hr.
  destruct (populate_items_merged C T) as (C' & HC' & Hget);
    [by apply unique_keys_NoDup | done |].
  exists C'. split; [done|]. intros k. rewrite Hget. unfold merged.
  destruct (dict_get T k) as [v|] eqn:E; [|done].
  destruct v as [| | | | |kwargs]; try done.
  destruct (dict_get C k) as [w|]; [|done].
  destruct w as [| | | | |d]; try done.
  eexists. split; [done|]. intros sk. apply fills_get.
  by eapply unique_keys_nested.
Qed.

Lemma populate_config_fills_witness :
  let C := [("lr", VNone); ("model_kwargs", VDict [("pretrained", VBool false)])] in
  let T := [("lr", VInt 3); ("n_epochs", VInt 5);
            ("model_kwargs", VDict [("pretrained", VBool true); ("depth", VInt 18)])] in
  unique_keys T = true /\ kwargs_ready C T = true /\
  exists C', populate_config C (Some T) false = Ok C' /\
    forall k,
      match dict_get T k with
      | None => dict_get C' k = dict_get C k
      | Some (VDict kwargs) =>
          match dict_get C k with
          | Some (VDict d) =>
              exists d', dict_get C' k = Some (VDict d') /\
                         forall sk, dict_get d' sk = filled d kwargs sk
          | _ => dict_get C' k = dict_get C k
          end
      | Some v => dict_get C' k = if unset C k then Some v else dict_get C k
      end.
Proof.
  intros C T. split; [reflexivity|]. split; [reflexivity|].
  apply (populate_config_fills C T); reflexivity.
Defined.

(** C1 as stated fails: a template key with a nested dictionary that the
    configuration lacks is not filled, the call raises [KeyError]. *)
Lemma populate_config_nested_absent :
  let C : dict := [("lr", VNone)] in
  let T := [("model_kwargs", VDict [("pretrained", VBool true)])] in
  dict_get C "model_kwargs" = None /\
  populate_config C (Some T) false = Raise (KeyError (VStr "model_kwargs")) /\
  ~ exists C', populate_config C (Some T) false = Ok C'.
Proof.
  split; [reflexivity|]. split; [reflexivity|]. intros [C' H]. discriminate H.
Qed.

(** Nor where the configuration has [None] there: [TypeError]. *)
Example populate_config_nested_none :
  populate_config [("model_kwargs", VNone)]
    (Some [("model_kwargs", VDict [("pretrained", VBool true)])]) false
  = Raise TypeError.
Proof. reflexivity. Qed.

(** ** C2, as the code has it: what is set is kept, idempotence *)

(** C2, as the code has it.  Without [force_compatibility],
    [populate_config] changes no set (not [None]) field that is not a
    dictionary, and of a dictionary field it keeps every set sub-field: the
    dictionary itself may gain the sub-keys of the template that it lacks.
    A second application changes nothing: the populated configuration is
    returned as it is, and a call that raises does so again.  On a template
    with distinct keys the call returns whenever the nested option
    dictionaries of the template meet dictionaries in the configuration. *)
Theorem populate_config_idempotent (C : dict) (T : option dict) :
  (forall C', populate_config C T false = Ok C' ->
     keeps_config C C' /\ populate_config C' T false = Ok C') /\
  (let* C' := populate_config C T false in populate_config C' T false)
  = populate_config C T false /\
  (forall t, T = Some t -> unique_keys t = true ->
     kwargs_ready C t = true ->
     exists C', populate_config C T false = Ok C').
Proof.
  assert (H : forall C', populate_config C T false = Ok C' ->
     keeps_config C C' /\ populate_config C' T false = Ok C').
  { destruct T as [t|]; simpl.
    - intros C' H. split; [by eapply populate_items_keeps|].
      by eapply populate_items_id, populate_items_settled.
    - intros C' [= <-]. split; [apply keeps_config_refl | done]. }
  split; [done|]. split.
  - destruct (populate_config C T false) as [C'|e] eqn:E; [|done].
    simpl. by apply H.
  - intros t -> Hu Hr.
    destruct (populate_items_merged C t) as (C' & HC' & _);
      [by apply unique_keys_NoDup | done |].
    by exists C'.
Qed.

(** C2 as stated fails: a set field that is a dictionary is changed, it
    gains the sub-key [depth] of the template. *)
Lemma populate_config_extends_dictionary :
  let C := [("model_kwargs", VDict [("pretrained", VBool false)])] in
  let T := [("model_kwargs",
             VDict [("pretrained", VBool true); ("depth", VInt 18)])] in
  let after := VDict [("pretrained", VBool false); ("depth", VInt 18)] in
  dict_get C "model_kwargs" = Some (VDict [("pretrained", VBool false)]) /\
  populate_config C (Some T) false = Ok [("model_kwargs", after)] /\
  py_ne (VDict [("pretrained", VBool false)]) after = true.
Proof. repeat split. Qed.

Lemma populate_config_idempotent_witness :
  let C := [("lr", VNone); ("model", VStr "resnet");
            ("model_kwargs", VDict [("pretrained", VBool false)])] in
  let T := [("lr", VInt 3); ("model", VStr "bert");
            ("model_kwargs",
             VDict [("pretrained", VBool true); ("depth", VInt 18)])] in
  exists C',
    populate_config C (Some T) false = Ok C' /\
    dict_get C' "lr" = Some (VInt 3) /\
    dict_get C' "model" = Some (VStr "resnet") /\
    keeps_config C C' /\
    populate_config C' (Some T) false = Ok C'.
Proof.
  intros C T.
  destruct (populate_config_idempotent C (Some T)) as (Hkeep & _ & Hret).
  destruct (Hret T eq_refl) as [C' HC']; [reflexivity..|].
  exists C'. split; [exact HC'|].
  destruct (Hkeep C' HC') as [Hk Hid].
  assert (HC : populate_config C (Some T) false
               = Ok [("lr", VInt 3); ("model", VStr "resnet");
                     ("model_kwargs",
                      VDict [("pretrained", VBool false);
                             ("depth", VInt 18)])])
    by reflexivity.
  rewrite HC in HC'. injection HC' as <-.
  split; [reflexivity|]. split; [reflexivity|]. split; [exact Hk | exact Hid].
Defined.

(** ** C3: [force_compatibility] *)

Lemma differs_ext d d' k v :
  dict_get d' k = dict_get d k -> differs d' k v = differs d k v.
Proof. unfold differs. by intros ->. Qed.

Lemma kwargs_conflict_fill1 d k v items :
  k ∉ keys items ->
  kwargs_conflict (fill1 d k v) items = kwargs_conflict d items.
Proof.
  induction items as [|[k' v'] items IH]; [done|].
  simpl. rewrite not_elem_of_cons. intros [Hne Hk].
  unfold kwargs_conflict in *. simpl.
  rewrite IH by done. f_equal. apply differs_ext. by apply fill1_get_ne.
Qed.

(** The loop over [val.items()] with [force_compatibility]: it raises at
    the first sub-key set to a different value, else it is [fills]. *)
Lemma populate_kwargs_strict key val d items :
  NoDup (keys items) ->
  if kwargs_conflict d items
  then exists sk, populate_kwargs true key val (VDict d) items
                  = Raise (ValueError (MustBeSetKw key sk (VDict val)))
  else populate_kwargs true key val (VDict d) items
       = Ok (VDict (fills d items)).
Proof.
  revert d. induction items as [|[k v] items IH]; intros d; [done|].
  simpl keys. rewrite NoDup_cons. intros [Hk Hnd].
  specialize (IH (fill1 d k v) Hnd).
  rewrite kwargs_conflict_fill1 in IH by done.
  unfold kwargs_conflict in *. simpl. unfold differs at 1.
  unfold fill1, unset in *.
  destruct (dict_get d k) as [w|]; [|done].
  rewrite andb_true_r.
  destruct w; try done; simpl;
    (destruct (py_ne _ v); simpl; [by eexists | done]).
Qed.

Lemma populate_items_strict_cons c k v rest :
  (forall kwargs, v = VDict kwargs -> NoDup (keys kwargs)) ->
  if entry_conflict c k v
  then exists m, populate_items true c ((k, v) :: rest) = Raise (ValueError m)
  else populate_items true c ((k, v) :: rest)
       = let* c' := merge1 c k v in populate_items true c' rest.
Proof.
  intros Hnd. unfold entry_conflict, merge1, differs, fill1, unset. simpl.
  destruct v as [| | | | |kwargs];
    try (destruct (dict_get c k) as [[]|]; simpl; rewrite ?andb_true_r;
         try (match goal with
              | |- context [py_ne ?a ?b] => destruct (py_ne a b)
              end);
         simpl; first [done | by eexists]).
  destruct kwargs as [|kv kwargs].
  { destruct (dict_get c k) as [w|]; [|done]. by destruct w. }
  destruct (dict_get c k) as [w|]; [|done].
  destruct (is_dict w) eqn:E.
  - destruct w as [| | | | |d]; try done.
    pose proof (populate_kwargs_strict k (kv :: kwargs) d (kv :: kwargs)
                  (Hnd _ eq_refl)) as H.
    destruct (kwargs_conflict d (kv :: kwargs)).
    + destruct H as [sk ->]. by eexists.
    + by rewrite H.
  - rewrite populate_kwargs_not_dict by done. by destruct w.
Qed.

Lemma entry_conflict_ext c c' k v :
  dict_get c' k = dict_get c k -> entry_conflict c' k v = entry_conflict c k v.
Proof. unfold entry_conflict, differs. by intros ->. Qed.

Lemma conflict_ext c c' t :
  (forall k, k ∈ keys t -> dict_get c' k = dict_get c k) ->
  conflict c' t = conflict c t.
Proof.
  induction t as [|[k v] t IH]; [done|]. intros H.
  unfold conflict in *. simpl.
  rewrite IH by (intros; apply H; by right).
  f_equal. apply entry_conflict_ext, H. left.
Qed.

Lemma populate_items_strict c t :
  unique_keys t = true -> kwargs_ready c t = true ->
  if conflict c t
  then exists m, populate_items true c t = Raise (ValueError m)
  else populate_items true c t = populate_items false c t.
Proof.
  revert c. induction t as [|[k v] t IH]; intros c; [done|].
  intros (Hk & Hu & Hv)%unique_keys_cons Hr.
  rewrite kwargs_ready_cons in Hr. apply andb_true_iff in Hr as [Hr0 Hr].
  pose proof (populate_items_strict_cons c k v t Hv) as Hs.
  change (conflict c ((k, v) :: t))
    with (entry_conflict c k v || conflict c t).
  destruct (entry_conflict c k v); [done|]. rewrite orb_false_l.
  rewrite Hs, populate_items_cons.
  destruct (kwargs_ready_merge1 _ _ _ Hr0) as [c1 Hm]. rewrite Hm. simpl.
  assert (Hother : forall k', k' ∈ keys t -> dict_get c1 k' = dict_get c k').
  { intros k' Hk'. eapply merge1_get_ne; [done|]. by intros ->. }
  rewrite <- (conflict_ext c c1) by done.
  apply IH; [done|]. by rewrite (kwargs_ready_ext c).
Qed.

(** C3, as the code has it.  When the configuration holds a dictionary
    wherever the template has a nested dictionary with entries,
    [populate_config] with [force_compatibility] raises the [ValueError]
    exactly when some key of the template whose value is not a dictionary
    is set (not [None]) in the configuration to a different value, or some
    sub-key of a nested dictionary of the template is set in the
    configuration's dictionary to a different value; otherwise it returns
    what it returns without [force_compatibility]. *)
Theorem populate_config_strict (C T : dict) :
  unique_keys T = true -> kwargs_ready C T = true ->
  ((exists m, populate_config C (Some T) true = Raise (ValueError m))
   <-> conflict C T = true) /\
  (conflict C T = false ->
   exists C', populate_config C (Some T) true = Ok C' /\
              populate_config C (Some T) false = Ok C').
Proof.
  intros Hu Hr. simpl.
  pose proof (populate_items_strict C T Hu Hr) as Hs.
  destruct (populate_items_merged C T) as (C' & HC' & _);
    [by apply unique_keys_NoDup | done |].
  destruct (conflict C T).
  - split; [done|]. done.
  - rewrite Hs, HC'. split; [|by eauto].
    split; [by intros [m H] | done].
Qed.

Lemma populate_config_strict_witness :
  let C := [("lr", VInt 3); ("model_kwargs", VDict [("pretrained", VBool false)])] in
  let T := [("lr", VInt 3);
            ("model_kwargs", VDict [("pretrained", VBool true); ("depth", VInt 18)])] in
  unique_keys T = true /\ kwargs_ready C T = true /\
  ((exists m, populate_config C (Some T) true = Raise (ValueError m))
   <-> conflict C T = true) /\
  (conflict C T = false ->
   exists C', populate_config C (Some T) true = Ok C' /\
              populate_config C (Some T) false = Ok C').
Proof.
  intros C T. split; [reflexivity|]. split; [reflexivity|].
  apply (populate_config_strict C T); reflexivity.
Defined.

Example populate_config_strict_raises :
  populate_config
    [("lr", VInt 3); ("model_kwargs", VDict [("pretrained", VBool false)])]
    (Some [("lr", VInt 3);
           ("model_kwargs", VDict [("pretrained", VBool true); ("depth", VInt 18)])])
    true
  = Raise (ValueError
             (MustBeSetKw "model_kwargs" "pretrained"
                (VDict [("pretrained", VBool true); ("depth", VInt 18)]))).
Proof. reflexivity. Qed.

(** C3 as stated fails: the key [lr] is in both, its values differ
    ([None] and [3]), and nothing is raised: the value is filled in. *)
Lemma populate_config_strict_none :
  let C := [("lr", VNone)] in
  let T := [("lr", VInt 3)] in
  dict_get C "lr" = Some VNone /\ dict_get T "lr" = Some (VInt 3) /\
  py_ne VNone (VInt 3) = true /\
  populate_config C (Some T) true = Ok [("lr", VInt 3)].
Proof. repeat split. Qed.

(** Nor is a difference between two nested dictionaries as wholes a
    conflict: the sub-keys are compared one by one. *)
Example populate_config_strict_nested :
  let d := VDict [("pretrained", VBool true); ("depth", VInt 18)] in
  let t := VDict [("pretrained", VBool true)] in
  py_ne d t = true /\
  populate_config [("model_kwargs", d)] (Some [("model_kwargs", t)]) true
  = Ok [("model_kwargs", d)].
Proof. split; reflexivity. Qed.

(** ** [populate_defaults]: the cascade (C9) and the required fields (C8) *)

Lemma getattr_Ok c name v : dict_get c name = Some v -> getattr c name = Ok v.
Proof. unfold getattr. by intros ->. Qed.

Lemma check_required_first c pre f post :
  forallb (is_set c) pre = true -> dict_get c f = Some VNone ->
  check_required c (pre ++ f :: post) = Raise (AssertionError (must_specify f)).
Proof.
  intros Hpre Hf. induction pre as [|g pre IH]; simpl.
  - unfold getattr. by rewrite Hf.
  - simpl in Hpre. apply andb_true_iff in Hpre as [Hg Hpre].
    unfold is_set, getattr in *. destruct (dict_get c g) as [v|]; [|done].
    simpl. destruct (is_none v); [done|]. simpl. by apply IH.
Qed.

Lemma check_required_ok c fields :
  forallb (is_set c) fields = true -> check_required c fields = Ok tt.
Proof.
  induction fields as [|g fields IH]; simpl; [done|].
  intros [Hg H]%andb_true_iff.
  unfold is_set, getattr in *. destruct (dict_get c g) as [v|]; [|done].
  simpl. destruct (is_none v); [done|]. simpl. by apply IH.
Qed.

Lemma misc_defaults_get c c' k :
  misc_defaults c = Ok c' -> k <> "no_group_logging" ->
  dict_get c' k = dict_get c k.
Proof.
  unfold misc_defaults, getattr, setattr. intros H Hk.
  destruct (dict_get c "groupby_fields") as [gb|]; [|done]. simpl in H.
  destruct (dict_get _ "no_group_logging") as [v|]; [|done]. simpl in H.
  injection H as <-. rewrite dict_get_set_ne by done.
  destruct (is_none gb); [by rewrite dict_get_set_ne|done].
Qed.

Lemma bind_Ok {A B} (r : result A) (f : A -> result B) b :
  bind r f = Ok b -> exists a, r = Ok a /\ f a = Ok b.
Proof. destruct r; simpl; [eauto | done]. Qed.

Lemma populate_config_keeps c t c' :
  populate_config c t false = Ok c' -> keeps_config c c'.
Proof.
  destruct t; simpl; [apply populate_items_keeps|].
  intros [= <-]. apply keeps_config_refl.
Qed.

Lemma getitem_Ok {A} (table : gmap string A) v a :
  getitem table v = Ok a -> exists s, v = VStr s /\ table !! s = Some a.
Proof.
  unfold getitem. destruct v; simpl; try done.
  destruct (table !! s) eqn:E; [|done]. intros [= <-]. eauto.
Qed.

Lemma getattr_inv c name v : getattr c name = Ok v -> dict_get c name = Some v.
Proof. unfold getattr. destruct (dict_get c name); [congruence | done]. Qed.

Tactic Notation "bind_inv" hyp(H) "as" ident(a) ident(Ha) :=
  apply bind_Ok in H as (a & Ha & H).

Lemma dataset_layer_template P c c' :
  dataset_layer P c = Ok c' ->
  is_Some (dataset_template P c) /\
  populate_config c (dataset_template P c) false = Ok c'.
Proof.
  unfold dataset_layer, dataset_template. intros H.
  bind_inv H as v Hv. bind_inv H as t Ht. apply getattr_inv in Hv.
  apply getitem_Ok in Ht as (s & -> & Hs). rewrite Hv. simpl. rewrite Hs.
  split; [by eexists | done].
Qed.

Lemma algorithm_layer_template P c c' :
  algorithm_layer P c = Ok c' ->
  is_Some (algorithm_template P c) /\
  populate_config c (algorithm_template P c) false = Ok c'.
Proof.
  unfold algorithm_layer, algorithm_template. intros H.
  bind_inv H as v Hv. bind_inv H as t Ht. apply getattr_inv in Hv.
  apply getitem_Ok in Ht as (s & -> & Hs). rewrite Hv. simpl. rewrite Hs.
  split; [by eexists | done].
Qed.

Lemma model_layer_template P c c' :
  model_layer P c = Ok c' ->
  populate_config c (model_template P c) false = Ok c'.
Proof.
  unfold model_layer, model_template. intros H.
  bind_inv H as v Hv. apply getattr_inv in Hv. rewrite Hv. simpl.
  destruct (truthy v); [|done].
  bind_inv H as v' Hv'. bind_inv H as t Ht. apply getattr_inv in Hv'.
  rewrite Hv in Hv'. injection Hv' as <-.
  apply getitem_Ok in Ht as (s & -> & Hs). simpl. by rewrite Hs.
Qed.

Lemma scheduler_layer_template P c c' :
  scheduler_layer P c = Ok c' ->
  populate_config c (scheduler_template P c) false = Ok c'.
Proof.
  unfold scheduler_layer, scheduler_template. intros H.
  bind_inv H as v Hv. apply getattr_inv in Hv. rewrite Hv. simpl.
  destruct (truthy v); [|done].
  bind_inv H as v' Hv'. bind_inv H as t Ht. apply getattr_inv in Hv'.
  rewrite Hv in Hv'. injection Hv' as <-.
  apply getitem_Ok in Ht as (s & -> & Hs). simpl. by rewrite Hs.
Qed.

Lemma contains_Ok {A} (table : gmap string A) v b :
  contains table v = Ok b ->
  b = match v with VStr s => bool_decide (is_Some (table !! s)) | _ => false end.
Proof. unfold contains. destruct v; simpl; congruence. Qed.

Lemma split_layer_template P c c' :
  split_layer P c = Ok c' ->
  populate_config c (split_template P c) false = Ok c'.
Proof.
  unfold split_layer, split_template. intros H.
  bind_inv H as ds Hds. apply getattr_inv in Hds. rewrite Hds.
  bind_inv H as b Hb. apply contains_Ok in Hb.
  destruct b.
  2:{ destruct ds as [| | |s| |]; try done.
      symmetry in Hb. apply bool_decide_eq_false in Hb.
      destruct (split_defaults P !! s) eqn:E; [by destruct Hb|].
      simpl. by destruct (dict_get c "split_scheme") as [[]|]. }
  destruct ds as [| | |s| |]; try done.
  bind_inv H as sch Hsch. apply getattr_inv in Hsch. rewrite Hsch.
  bind_inv H as by_scheme Hby.
  apply getitem_Ok in Hby as (s' & [= <-] & Hs). rewrite Hs. simpl.
  bind_inv H as b' Hb'. apply contains_Ok in Hb'.
  destruct b'.
  2:{ destruct sch as [| | |s2| |]; try done.
      symmetry in Hb'. apply bool_decide_eq_false in Hb'.
      destruct (by_scheme !! s2) eqn:E; [by destruct Hb'|done]. }
  destruct sch as [| | |s2| |]; try done.
  bind_inv H as ds2 Hds2. bind_inv H as by2 Hby2.
  bind_inv H as sch2 Hsch2. bind_inv H as t Ht.
  apply getattr_inv in Hds2, Hsch2. rewrite Hds in Hds2. injection Hds2 as <-.
  rewrite Hsch in Hsch2. injection Hsch2 as <-.
  apply getitem_Ok in Hby2 as (? & [= <-] & Hs'). rewrite Hs in Hs'.
  injection Hs' as <-.
  apply getitem_Ok in Ht as (? & [= <-] & Hs''). by rewrite Hs''.
Qed.

Lemma cascade_stages P c c' :
  cascade P c = Ok c' ->
  exists c1 c2 c3 c4 c5,
    dataset_layer P c = Ok c1 /\ split_layer P c1 = Ok c2 /\
    algorithm_layer P c2 = Ok c3 /\ loader_layer P c3 = Ok c4 /\
    model_layer P c4 = Ok c5 /\ scheduler_layer P c5 = Ok c'.
Proof.
  unfold cascade. intros H.
  bind_inv H as c1 H1. bind_inv H as c2 H2. bind_inv H as c3 H3.
  bind_inv H as c4 H4. bind_inv H as c5 H5.
  exists c1, c2, c3, c4, c5. done.
Qed.


Lemma required_not_logging :
  Forall (fun g => g <> "no_group_logging") required_fields.
Proof. repeat constructor; done. Qed.

Lemma is_set_ext c c' g :
  dict_get c' g = dict_get c g -> is_set c' g = is_set c g.
Proof. unfold is_set. by intros ->. Qed.

Lemma forallb_is_set_misc c c' fields :
  misc_defaults c = Ok c' -> fields ⊆ required_fields ->
  forallb (is_set c') fields = forallb (is_set c) fields.
Proof.
  intros Hm Hsub. induction fields as [|g fields IH]; [done|]. simpl.
  rewrite IH by (intros x Hx; apply Hsub; by right). f_equal.
  apply is_set_ext. eapply misc_defaults_get; [done|].
  pose proof required_not_logging as H. rewrite Forall_forall in H.
  apply H, Hsub. left.
Qed.

(** C8, as the code has it.  When the validations and the cascade have
    returned [c2] and the miscellaneous defaults are in place, the required
    fields are checked in the order of the checklist: if a required field
    is [None] in [c2] and every field before it in the checklist is set,
    [populate_defaults] raises the [AssertionError] whose message names
    that field -- [lr] when the eleven fields before it are set; if every
    required field is set it returns the configuration. *)
Theorem populate_defaults_required (P : presets) (c c2 c3 : dict) :
  (let* c1 := validations c in cascade P c1) = Ok c2 ->
  misc_defaults c2 = Ok c3 ->
  (forall pre f post,
     required_fields = (pre ++ f :: post)%list ->
     forallb (is_set c2) pre = true -> dict_get c2 f = Some VNone ->
     populate_defaults P c = Raise (AssertionError (must_specify f))) /\
  (forallb (is_set c2) required_fields = true ->
   populate_defaults P c = Ok c3).
Proof.
  intros H Hm. bind_inv H as c1 H1.
  unfold populate_defaults. rewrite H1. cbn [bind]. rewrite H. cbn [bind].
  rewrite Hm. cbn [bind]. split.
  - intros pre f post Hreq Hpre Hf. rewrite Hreq.
    rewrite check_required_first; [done| |].
    + rewrite (forallb_is_set_misc c2) by
        (done || (rewrite Hreq; intros x Hx; apply elem_of_app; by left)).
      done.
    + rewrite (misc_defaults_get c2) by
        (done || (pose proof required_not_logging as Hn;
                  rewrite Forall_forall in Hn; apply Hn; rewrite Hreq;
                  apply elem_of_app; right; left)).
      done.
  - intros Hall. rewrite check_required_ok; [done|].
    by rewrite (forallb_is_set_misc c2).
Qed.

Lemma count_step c key v e c' :
  (if is_none v then Ok (setattr c key (VInt 1))
   else if py_ne v (VInt 1) then Raise e else Ok c) = Ok c' ->
  count_ok v = true /\ c' = set_count c key v.
Proof.
  unfold count_ok, set_count, py_ne. destruct (is_none v).
  - by intros [= <-].
  - destruct (py_eq v (VInt 1)); simpl; [by intros [= <-] | done].
Qed.

Lemma validations_inv c gb c1 :
  dict_get c "groupby_fields" = Some gb -> py_eq gb from_source_domain = true ->
  validations c = Ok c1 ->
  exists nv uv,
    dict_get c "n_groups_per_batch" = Some nv /\ dict_get c "unlabeled_n_groups_per_batch" = Some uv /\
    count_ok nv = true /\ count_ok uv = true /\
    c1 = set_count (set_count c "n_groups_per_batch" nv) "unlabeled_n_groups_per_batch" uv.
Proof.
  intros Hgb Heq. unfold validations. intros H.
  bind_inv H as ds Hds. bind_inv H as x1 Hx1.
  bind_inv H as alg Halg. bind_inv H as x2 Hx2.
  bind_inv H as gb' Hgb'. apply getattr_inv in Hgb'.
  rewrite Hgb in Hgb'. injection Hgb' as <-. rewrite Heq in H.
  bind_inv H as c' Hc'. bind_inv Hc' as nv Hnv. apply getattr_inv in Hnv.
  bind_inv Hc' as cn Hcn. bind_inv Hc' as uv Huv. apply getattr_inv in Huv.
  apply count_step in Hcn as [Hn ->]. apply count_step in Hc' as [Hu ->].
  assert (Huv' : dict_get c "unlabeled_n_groups_per_batch" = Some uv).
  { revert Huv. unfold set_count, setattr.
    destruct (is_none nv); [by rewrite dict_get_set_ne|done]. }
  exists nv, uv. repeat split; try done.
  bind_inv H as alg' Halg'.
  destruct (py_eq alg' (VStr "DANN")); [|congruence].
  bind_inv H as lr Hlr. destruct (negb (is_none lr)); [done | congruence].
Qed.

Lemma set_count_get_n c nv uv :
  dict_get c "n_groups_per_batch" = Some nv ->
  dict_get (set_count (set_count c "n_groups_per_batch" nv) "unlabeled_n_groups_per_batch" uv) "n_groups_per_batch"
  = Some (if is_none nv then VInt 1 else nv).
Proof.
  intros H. unfold set_count, setattr.
  destruct (is_none uv); [rewrite dict_get_set_ne by done|];
    (destruct (is_none nv); [by rewrite dict_get_set_eq | done]).
Qed.

Lemma set_count_get_u c nv uv :
  dict_get c "unlabeled_n_groups_per_batch" = Some uv ->
  dict_get (set_count (set_count c "n_groups_per_batch" nv) "unlabeled_n_groups_per_batch" uv) "unlabeled_n_groups_per_batch"
  = Some (if is_none uv then VInt 1 else uv).
Proof.
  intros H. unfold set_count, setattr.
  destruct (is_none uv); [by rewrite dict_get_set_eq|].
  destruct (is_none nv); [by rewrite dict_get_set_ne | done].
Qed.

Lemma cascade_keeps P c c' : cascade P c = Ok c' -> keeps_config c c'.
Proof.
  intros (c1 & c2 & c3 & c4 & c5 & H1 & H2 & H3 & H4 & H5 & H6)%cascade_stages.
  apply dataset_layer_template in H1 as [_ H1].
  apply split_layer_template in H2.
  apply algorithm_layer_template in H3 as [_ H3].
  apply model_layer_template in H5.
  apply scheduler_layer_template in H6. unfold loader_layer in H4.
  apply populate_config_keeps in H1, H2, H3, H4, H5, H6.
  repeat (eapply keeps_config_trans; [eassumption|]).
  apply keeps_config_refl.
Qed.

Lemma populate_defaults_inv P c c' :
  populate_defaults P c = Ok c' ->
  exists c1 c2, validations c = Ok c1 /\ cascade P c1 = Ok c2 /\
                misc_defaults c2 = Ok c'.
Proof.
  unfold populate_defaults. intros H.
  bind_inv H as c1 H1. bind_inv H as c2 H2. bind_inv H as c3 H3.
  bind_inv H as x Hx. injection H as <-. eauto.
Qed.

Lemma populate_defaults_keeps_count P c c' key :
  key = "n_groups_per_batch" \/ key = "unlabeled_n_groups_per_batch" ->
  populate_defaults P c = Ok c' ->
  forall c1, validations c = Ok c1 ->
  dict_get c1 key = Some (VInt 1) -> dict_get c' key = Some (VInt 1).
Proof.
  intros Hkey (c1' & c2 & H1 & H2 & H3)%populate_defaults_inv c1 Hc1 Hget.
  rewrite H1 in Hc1. injection Hc1 as ->.
  rewrite (misc_defaults_get c2) by (done || by destruct Hkey as [-> | ->]).
  by apply (cascade_keeps _ _ _ H2 key (VInt 1)).
Qed.

Lemma set_count_get_other c key v k :
  k <> key -> dict_get (set_count c key v) k = dict_get c k.
Proof.
  intros H. unfold set_count, setattr.
  destruct (is_none v); [by rewrite dict_get_set_ne | done].
Qed.

Lemma count_step_Ok c key v e :
  count_ok v = true ->
  (if is_none v then Ok (setattr c key (VInt 1))
   else if py_ne v (VInt 1) then Raise e else Ok c) = Ok (set_count c key v).
Proof.
  unfold count_ok, set_count, py_ne. destruct (is_none v); [done|].
  simpl. by intros ->.
Qed.

Lemma validations_returns c ds alg gb nv uv :
  dict_get c "dataset" = Some ds -> is_none ds = false ->
  dict_get c "algorithm" = Some alg -> is_none alg = false ->
  (py_eq alg (VStr "DANN") = true -> dict_get c "lr" = Some VNone) ->
  dict_get c "groupby_fields" = Some gb ->
  py_eq gb from_source_domain = true ->
  dict_get c "n_groups_per_batch" = Some nv -> count_ok nv = true ->
  dict_get c "unlabeled_n_groups_per_batch" = Some uv -> count_ok uv = true ->
  validations c
  = Ok (set_count (set_count c "n_groups_per_batch" nv)
          "unlabeled_n_groups_per_batch" uv).
Proof.
  intros Hds Hdn Halg Han Hlr Hgb Heq Hn Hnok Hu Huok.
  unfold validations.
  rewrite (getattr_Ok _ _ _ Hds). cbn [bind]. rewrite Hdn.
  cbn [bind negb py_assert].
  rewrite (getattr_Ok _ _ _ Halg). cbn [bind]. rewrite Han.
  cbn [bind negb py_assert].
  rewrite (getattr_Ok _ _ _ Hgb). cbn [bind]. rewrite Heq.
  rewrite (getattr_Ok _ _ _ Hn). cbn [bind].
  rewrite (count_step_Ok c "n_groups_per_batch" nv _ Hnok). cbn [bind].
  rewrite (getattr_Ok _ "unlabeled_n_groups_per_batch" uv)
    by (by rewrite set_count_get_other).
  cbn [bind].
  rewrite (count_step_Ok _ "unlabeled_n_groups_per_batch" uv _ Huok).
  cbn [bind].
  rewrite (getattr_Ok _ "algorithm" alg)
    by (by rewrite !set_count_get_other).
  cbn [bind].
  destruct (py_eq alg (VStr "DANN")) eqn:E; [|done].
  rewrite (getattr_Ok _ "lr" VNone)
    by (rewrite !set_count_get_other by done; by apply Hlr).
  done.
Qed.

(** C7.  With [groupby_fields == ['from_source_domain']], on a
    configuration that has a dataset and an algorithm (and no learning rate
    with DANN) and whose two counts are [None] or equal to 1, the
    validations return, with [n_groups_per_batch] (respectively
    [unlabeled_n_groups_per_batch]) 1 where it was [None] and every other
    field as it was; in the configuration the validations go on with, and
    in the one [populate_defaults] returns, each count is 1 if it was
    [None]; if either is set to a value other than 1 ([!= 1]) the
    validations raise, so that [populate_defaults] raises that error
    whatever the presets are: no preset has been applied. *)
Theorem populate_defaults_from_source_domain (P : presets) (c : dict)
    (gb : value) :
  dict_get c "groupby_fields" = Some gb ->
  py_eq gb from_source_domain = true ->
  (forall ds alg nv uv,
     dict_get c "dataset" = Some ds -> is_none ds = false ->
     dict_get c "algorithm" = Some alg -> is_none alg = false ->
     (py_eq alg (VStr "DANN") = true -> dict_get c "lr" = Some VNone) ->
     dict_get c "n_groups_per_batch" = Some nv -> count_ok nv = true ->
     dict_get c "unlabeled_n_groups_per_batch" = Some uv ->
     count_ok uv = true ->
     exists c1,
       validations c = Ok c1 /\
       dict_get c1 "n_groups_per_batch"
       = Some (if is_none nv then VInt 1 else nv) /\
       dict_get c1 "unlabeled_n_groups_per_batch"
       = Some (if is_none uv then VInt 1 else uv) /\
       forall key, key <> "n_groups_per_batch" ->
                   key <> "unlabeled_n_groups_per_batch" ->
                   dict_get c1 key = dict_get c key) /\
  (forall c', validations c = Ok c' \/ populate_defaults P c = Ok c' ->
     (dict_get c "n_groups_per_batch" = Some VNone ->
      dict_get c' "n_groups_per_batch" = Some (VInt 1)) /\
     (dict_get c "unlabeled_n_groups_per_batch" = Some VNone ->
      dict_get c' "unlabeled_n_groups_per_batch" = Some (VInt 1))) /\
  (forall key v,
     key = "n_groups_per_batch" \/ key = "unlabeled_n_groups_per_batch" ->
     dict_get c key = Some v -> is_none v = false -> py_ne v (VInt 1) = true ->
     exists e, validations c = Raise e /\
               forall P', populate_defaults P' c = Raise e).
Proof.
  intros Hgb Heq. split; [|split].
  - intros ds alg nv uv Hds Hdn Halg Han Hlr Hn Hnok Hu Huok.
    eexists. split; [by eapply validations_returns|].
    split; [by apply set_count_get_n|]. split; [by apply set_count_get_u|].
    intros key H1 H2. by rewrite !set_count_get_other.
  - assert (Hv : forall c1, validations c = Ok c1 ->
      (dict_get c "n_groups_per_batch" = Some VNone -> dict_get c1 "n_groups_per_batch" = Some (VInt 1)) /\
      (dict_get c "unlabeled_n_groups_per_batch" = Some VNone -> dict_get c1 "unlabeled_n_groups_per_batch" = Some (VInt 1))).
    { intros c1 (nv & uv & Hn & Hu & _ & _ & ->)%(validations_inv c gb); try done.
      split; intros H.
      - rewrite (set_count_get_n c nv uv Hn).
        rewrite Hn in H. by injection H as ->.
      - rewrite (set_count_get_u c nv uv Hu).
        rewrite Hu in H. by injection H as ->. }
    intros c' [H|H]; [by apply Hv|].
    destruct (populate_defaults_inv _ _ _ H) as (c1 & c2 & H1 & _).
    destruct (Hv c1 H1) as [Hn Hu].
    split; intros Hnone.
    + eapply (populate_defaults_keeps_count P c c' "n_groups_per_batch"); eauto.
    + eapply (populate_defaults_keeps_count P c c' "unlabeled_n_groups_per_batch"); eauto.
  - intros key v Hkey Hget Hset Hne.
    destruct (validations c) as [c1|e] eqn:E.
    + exfalso.
      apply (validations_inv c gb) in E
        as (nv & uv & Hn & Hu & Hnok & Huok & _); try done.
      unfold count_ok, py_ne in *.
      destruct Hkey as [-> | ->];
        [rewrite Hn in Hget | rewrite Hu in Hget]; injection Hget as ->;
        rewrite Hset in *; simpl in *;
        [rewrite Hnok in Hne | rewrite Huok in Hne]; done.
    + exists e. split; [done|]. intros P'. unfold populate_defaults.
      by rewrite E.
Qed.

Lemma populate_defaults_from_source_domain_witness :
  let c := example_config "camelyon17" "deepCORAL" from_source_domain VNone
             (VInt 1) in
  dict_get c "groupby_fields" = Some from_source_domain /\
  py_eq from_source_domain from_source_domain = true /\
  dict_get c "n_groups_per_batch" = Some VNone /\
  dict_get c "unlabeled_n_groups_per_batch" = Some VNone /\
  (exists c1,
     validations c = Ok c1 /\
     dict_get c1 "n_groups_per_batch" = Some (VInt 1) /\
     dict_get c1 "unlabeled_n_groups_per_batch" = Some (VInt 1)) /\
  populate_defaults example_presets c = Ok example_resolved /\
  dict_get example_resolved "n_groups_per_batch" = Some (VInt 1) /\
  dict_get example_resolved "unlabeled_n_groups_per_batch" = Some (VInt 1).
Proof.
  intros c.
  destruct (populate_defaults_from_source_domain example_presets c
              from_source_domain) as (Hret & Hset & _); [reflexivity..|].
  assert (Hrun : populate_defaults example_presets c = Ok example_resolved)
    by (vm_compute; reflexivity).
  destruct (Hret (VStr "camelyon17") (VStr "deepCORAL") VNone VNone)
    as (c1 & Hc1 & Hn & Hu & _); try reflexivity; [done|].
  destruct (Hset example_resolved (or_intror Hrun)) as [Hn' Hu'].
  split; [reflexivity|]. split; [reflexivity|]. split; [reflexivity|].
  split; [reflexivity|]. split.
  { exists c1. split; [exact Hc1|]. split; [exact Hn | exact Hu]. }
  split; [exact Hrun|]. split; [apply Hn' | apply Hu']; reflexivity.
Defined.

(** Both counts unset: both are 1 in the configuration returned, though
    the dataset and loader presets have other values for the first. *)
Example populate_defaults_sets_counts :
  exists c',
    populate_defaults example_presets
      (example_config "camelyon17" "deepCORAL" from_source_domain VNone
         (VInt 1)) = Ok c' /\
    dict_get c' "n_groups_per_batch" = Some (VInt 1) /\
    dict_get c' "unlabeled_n_groups_per_batch" = Some (VInt 1).
Proof. eexists. split; [vm_compute; reflexivity|]. split; reflexivity. Qed.

Example populate_defaults_rejects_count :
  populate_defaults example_presets
    (example_config "camelyon17" "deepCORAL" from_source_domain (VInt 2)
       (VInt 1))
  = Raise (ValueError (NGroupsPerBatch (VInt 2))).
Proof. vm_compute. reflexivity. Qed.

Lemma populate_defaults_required_witness :
  let c := example_config "camelyon17" "deepCORAL" from_source_domain VNone
             VNone in
  populate_defaults example_presets c = Raise (AssertionError (must_specify "lr")).
Proof.
  intros c.
  set (c2 := match (let* c1 := validations c in cascade example_presets c1)
             with Ok x => x | Raise _ => [] end).
  set (c3 := match misc_defaults c2 with Ok x => x | Raise _ => [] end).
  assert (H2 : (let* c1 := validations c in cascade example_presets c1)
               = Ok c2) by (vm_compute; reflexivity).
  assert (H3 : misc_defaults c2 = Ok c3) by (vm_compute; reflexivity).
  apply (proj1 (populate_defaults_required example_presets c c2 c3 H2 H3)
           ["split_scheme"; "train_loader"; "uniform_over_groups";
            "batch_size"; "eval_loader"; "model"; "loss_function";
            "val_metric"; "val_metric_decreasing"; "n_epochs"; "optimizer"]
           "lr" ["weight_decay"]);
    vm_compute; reflexivity.
Defined.

(** C8 as stated fails: [lr] is [None] after the cascade, and the error
    names [split_scheme], the first required field that is [None]. *)
Lemma populate_defaults_names_first_null :
  let c := example_config "bare" "ERM" VNone VNone VNone in
  (exists c2, (let* c1 := validations c in cascade example_presets c1) = Ok c2
              /\ dict_get c2 "lr" = Some VNone) /\
  populate_defaults example_presets c
  = Raise (AssertionError "Must manually specify split_scheme for this setup.") /\
  must_specify "lr" <> "Must manually specify split_scheme for this setup.".
Proof.
  intros c. split; [|split].
  - eexists. split; [vm_compute; reflexivity | reflexivity].
  - vm_compute. reflexivity.
  - intros H. vm_compute in H. discriminate H.
Qed.


(** The dataset preset has 5 epochs and the split preset 10: the dataset
    preset, applied first, wins; [pretrained] is the dataset preset's, not
    the model preset's. *)
Example cascade_first_writer_wins :
  exists c',
    cascade example_presets
      (example_config "camelyon17" "deepCORAL" from_source_domain (VInt 1)
         (VInt 1)) = Ok c' /\
    dict_get c' "n_epochs" = Some (VInt 5) /\
    dict_get c' "model_kwargs" = Some (VDict [("pretrained", VBool false)]).
Proof. eexists. split; [vm_compute; reflexivity|]. split; reflexivity. Qed.

(** ** Deep CORAL: the objective (C5) *)

Section Objective.
Context {N : numbers}.
Implicit Types (self : algorithm N) (results : gmap string (rvalue N)).

Lemma rget_Ok results key v : results !! key = Some v -> rget results key = Ok v.
Proof. unfold rget. by intros ->. Qed.

Lemma rget_inv results key v : rget results key = Ok v -> results !! key = Some v.
Proof. unfold rget. destruct (results !! key); [congruence | done]. Qed.

Lemma unlabeled_groups_results results results' uf n idx :
  unlabeled_groups results = Ok (results', uf, n, idx) ->
  results' = delete "unlabeled_features" results.
Proof.
  unfold unlabeled_groups.
  destruct (results !! "unlabeled_features") as [v|] eqn:E.
  - intros H. bind_inv H as ug Hug. bind_inv H as ug' Hug'.
    destruct (split_into_groups ug'). by injection H as <-.
  - intros [= <-]. symmetry. by apply delete_id.
Qed.

Lemma training_penalty_results d features results results' p :
  training_penalty d features results = Ok (results', p) ->
  results' = delete "unlabeled_features" results.
Proof.
  unfold training_penalty. intros H.
  bind_inv H as g Hg. bind_inv H as g' Hg'.
  destruct (split_into_groups g') as [unique_groups group_indices].
  bind_inv H as r Hr. destruct r as [[[results1 uf] n] idx].
  bind_inv H as penalty Hp. injection H as <- _.
  by eapply unlabeled_groups_results.
Qed.

Lemma objective_results self results results' loss :
  objective self results = Ok (results', loss) ->
  is_Some (results !! "features") /\
  exists p,
    results' = <["penalty" := RNum p]>
                 (if is_training self
                  then delete "unlabeled_features" (delete "features" results)
                  else delete "features" results).
Proof.
  unfold objective. intros H.
  bind_inv H as features Hf. apply rget_inv in Hf.
  bind_inv H as r Hr. destruct r as [results1 penalty].
  bind_inv H as y_pred Hyp. bind_inv H as y_true Hyt.
  bind_inv H as avg_loss Hl. injection H as <- _.
  split; [by eexists|]. exists penalty. f_equal.
  destruct (is_training self).
  - by eapply training_penalty_results.
  - by injection Hr as <- _.
Qed.

(** [objective] needs the key ['features']; whenever it returns, the
    mapping it leaves has no key ['features'], has ['penalty'] holding a
    plain number, has lost ['unlabeled_features'] in training mode and kept
    it as it was in evaluation mode, and has every other key as before. *)
Theorem objective_frame self results :
  (results !! "features" = None ->
   objective self results = Raise (KeyError (VStr "features"))) /\
  (forall results' loss,
     objective self results = Ok (results', loss) ->
     results' !! "features" = None /\
     (exists p, results' !! "penalty" = Some (RNum p)) /\
     results' !! "unlabeled_features"
     = (if is_training self then None else results !! "unlabeled_features") /\
     forall key, key <> "features" -> key <> "unlabeled_features" ->
                 key <> "penalty" -> results' !! key = results !! key).
Proof.
  split.
  - intros H. unfold objective, rget. by rewrite H.
  - intros results' loss (_ & p & ->)%objective_results.
    split; [|split; [|split]].
    + rewrite lookup_insert_ne by done.
      destruct (is_training self); rewrite ?lookup_delete_ne by done;
        apply lookup_delete_eq.
    + exists p. apply lookup_insert_eq.
    + rewrite lookup_insert_ne by done.
      destruct (is_training self);
        [apply lookup_delete_eq | by rewrite lookup_delete_ne].
    + intros key H1 H2 H3. rewrite lookup_insert_ne by done.
      destruct (is_training self); by rewrite ?lookup_delete_ne.
Qed.

(** C5, as the code has it.  In evaluation mode [objective] stores the
    penalty 0 and returns the base loss plus 0 times the penalty weight,
    whatever the features and the group identifiers are: the base loss
    plus 0, where 0 times the weight is 0. *)
Theorem objective_evaluation self results features y_pred y_true base :
  is_training self = false ->
  results !! "features" = Some features ->
  results !! "y_pred" = Some y_pred ->
  results !! "y_true" = Some y_true ->
  loss_compute self y_pred y_true = Ok base ->
  objective self results
  = Ok (<["penalty" := RNum (zero N)]> (delete "features" results),
        add N base (mul N (zero N) (penalty_weight self))) /\
  (mul N (zero N) (penalty_weight self) = zero N ->
   exists results',
     objective self results = Ok (results', add N base (zero N))).
Proof.
  intros Ht Hf Hp Hy Hl.
  assert (H : objective self results
    = Ok (<["penalty" := RNum (zero N)]> (delete "features" results),
          add N base (mul N (zero N) (penalty_weight self)))).
  { unfold objective. rewrite (rget_Ok _ _ _ Hf), Ht. cbn [bind].
    rewrite (rget_Ok _ "y_pred" y_pred), (rget_Ok _ "y_true" y_true).
    - cbn [bind]. by rewrite Hl.
    - rewrite lookup_insert_ne, lookup_delete_ne; done.
    - rewrite lookup_insert_ne, lookup_delete_ne; done. }
  split; [done|]. intros Hz. eexists. by rewrite H, Hz.
Qed.

End Objective.

(** ** Deep CORAL: the penalty of a tensor with itself, on exact numbers *)

Section Exact.
Context {N : numbers} (defined : N -> Prop).
Hypothesis E : exact_arithmetic N defined.
Implicit Types (x : list (list N)) (l : list N).

Lemma defined_fold_add l a :
  defined a -> Forall defined l -> defined (fold_left (add N) l a).
Proof.
  revert a. induction l as [|b l IH]; intros a Ha Hl; simpl; [done|].
  apply Forall_cons in Hl as [Hb Hl].
  apply IH; [|done]. by apply (defined_add _ _ E).
Qed.

Lemma defined_sum l : Forall defined l -> defined (sum l).
Proof. apply defined_fold_add, (defined_zero _ _ E). Qed.

Lemma defined_nth l j : Forall defined l -> defined (nth j l (zero N)).
Proof.
  pose proof (defined_zero _ _ E) as Hz.
  intros Hl. revert j. induction Hl as [|a l Ha Hl IH]; intros [|j]; simpl;
    auto.
Qed.

Lemma defined_column x j :
  Forall (Forall defined) x -> Forall defined (column j x).
Proof.
  intros H. unfold column. apply Forall_fmap.
  eapply Forall_impl; [done|]. intros r Hr. by apply defined_nth.
Qed.

Lemma defined_mean0 d x :
  Forall (Forall defined) x -> x <> [] -> Forall defined (mean0 d x).
Proof.
  intros H Hx. unfold mean0. apply Forall_fmap, Forall_forall. intros j _.
  simpl. apply (defined_div _ _ E).
  - by apply defined_sum, defined_column.
  - unfold len. destruct x; [done | simpl; lia].
Qed.

Lemma defined_center d x m :
  Forall (Forall defined) x -> Forall defined m ->
  Forall (Forall defined) (center d x m).
Proof.
  intros Hx Hm. unfold center. apply Forall_fmap.
  eapply Forall_impl; [done|]. intros r Hr. simpl.
  apply Forall_fmap, Forall_forall. intros j _. simpl.
  apply (defined_sub _ _ E); by apply defined_nth.
Qed.

Lemma defined_covariance d c n :
  Forall (Forall defined) c -> (n - 1 <> 0)%Z ->
  Forall (Forall defined) (covariance d c n).
Proof.
  intros Hc Hn. unfold covariance. apply Forall_fmap, Forall_forall.
  intros a _. simpl. apply Forall_fmap, Forall_forall. intros b _. simpl.
  apply (defined_div _ _ E); [|done].
  apply defined_sum, Forall_fmap. eapply Forall_impl; [done|].
  intros r Hr. simpl. apply (defined_mul _ _ E); by apply defined_nth.
Qed.

Lemma defined_nth_nth (c : list (list N)) a b :
  Forall (Forall defined) c -> defined (nth b (nth a c []) (zero N)).
Proof.
  intros Hc. apply defined_nth. revert a.
  induction Hc as [|r c Hr Hc IH]; intros [|a]; simpl; auto.
Qed.

Lemma sum_zeros l : Forall (fun a => a = zero N) l -> sum l = zero N.
Proof.
  unfold sum. induction 1 as [|a l -> Hl IH]; simpl; [done|].
  by rewrite (add_zero_zero _ _ E).
Qed.

Lemma mean_all_zeros l :
  Forall (fun a => a = zero N) l -> l <> [] -> mean_all l = zero N.
Proof.
  intros Hl Hne. unfold mean_all. rewrite sum_zeros by done.
  apply (div_zero _ _ E). destruct l; [done | simpl; lia].
Qed.

Lemma pow2_sub_diag a : defined a -> pow2 (sub N a a) = zero N.
Proof.
  intros Ha. unfold pow2. rewrite (sub_diag _ _ E) by done.
  apply (mul_zero_zero _ _ E).
Qed.

Lemma coral_penalty2_same d x :
  (0 < d)%nat -> Forall (Forall defined) x -> (2 <= length x)%nat ->
  coral_penalty2 d x x = zero N.
Proof.
  intros Hd Hx Hlen. unfold coral_penalty2.
  assert (Hne : x <> []) by (destruct x; [simpl in Hlen; lia | done]).
  pose proof (defined_mean0 d x Hx Hne) as Hm.
  pose proof (defined_center d x _ Hx Hm) as Hc.
  assert (Hn : (len x - 1 <> 0)%Z) by (unfold len; lia).
  pose proof (defined_covariance d _ _ Hc Hn) as Hv.
  rewrite !mean_all_zeros.
  - apply (add_zero_zero _ _ E).
  - apply Forall_concat, Forall_fmap, Forall_forall. intros a _. simpl.
    apply Forall_fmap, Forall_forall. intros b _. simpl.
    by apply pow2_sub_diag, defined_nth_nth.
  - destruct d as [|d]; [lia|]. done.
  - apply Forall_fmap, Forall_forall. intros j _. simpl.
    by apply pow2_sub_diag, defined_nth.
  - destruct d as [|d]; [lia|]. done.
Qed.

End Exact.

(** In an arithmetic that is exact on its defined values, for a tensor
    with at least one feature column, defined entries and at least 2 rows,
    [coral_penalty(x, x)] returns 0. *)
Theorem coral_penalty_same (N : numbers) (defined : N -> Prop) (d : nat)
    (x : tensor N) :
  exact_arithmetic N defined ->
  (0 < d)%nat ->
  Forall (Forall (Forall defined)) (items x) ->
  (2 <= length (view2 x))%nat ->
  coral_penalty d x x = Ok (zero N).
Proof.
  intros E Hd Hx Hlen.
  assert (H : coral_penalty2 d (view2 x) (view2 x) = zero N).
  { apply (coral_penalty2_same defined); try done.
    unfold view2. by apply Forall_concat. }
  unfold coral_penalty. rewrite H. by repeat case_match.
Qed.

Lemma Q2Qc_inject_Z_nonzero n : n <> 0%Z -> Q2Qc (inject_Z n) <> Q2Qc 0.
Proof.
  intros Hn H. apply (f_equal this) in H. simpl in H.
  apply Qred_eq_iff in H. unfold Qeq in H. simpl in H. lia.
Qed.

Lemma exact_is_exact : exact_arithmetic exact is_Some.
Proof.
  split; simpl.
  - by eexists.
  - intros a b [x ->] [y ->]. by eexists.
  - intros a b [x ->] [y ->]. by eexists.
  - intros a b [x ->] [y ->]. by eexists.
  - intros a n [x ->] Hn. unfold exact_div.
    destruct (Qc_eq_dec _ _) as [H|_]; [|by eexists].
    by apply Q2Qc_inject_Z_nonzero in H.
  - intros a [x ->]. simpl. f_equal; try ring.
  - f_equal; try ring.
  - f_equal; try ring.
  - intros n Hn. unfold exact_div.
    destruct (Qc_eq_dec _ _) as [H|_].
    + by apply Q2Qc_inject_Z_nonzero in H.
    + f_equal. unfold Qcdiv; try ring.
Qed.

Lemma coral_penalty_same_witness :
  let x := matrix [[rational 1; rational 2]; [rational 3; rational 5]] in
  coral_penalty 2 x x = Ok (zero exact).
Proof.
  intros x. apply (coral_penalty_same exact is_Some 2 x).
  - apply exact_is_exact.
  - lia.
  - repeat constructor; by eexists.
  - simpl. lia.
Defined.

(** A tensor with 2 rows and no feature column has means over no entries,
    and the penalty with itself is undefined, not 0. *)
Lemma coral_penalty_no_columns :
  let x := matrix (N:=exact) [[]; []] in
  length (view2 x) = 2%nat /\
  coral_penalty 0 x x = Ok None /\ None <> zero exact.
Proof. split; [reflexivity|]. split; [vm_compute; reflexivity | done]. Qed.

(** One row: the division by [len(x) - 1] is a division by zero. *)
Example coral_penalty_one_row :
  let x := matrix [[rational 1; rational 2]] in
  coral_penalty 2 x x = Ok None.
Proof. vm_compute. reflexivity. Qed.

(** In floating point an infinite entry gives nan as well. *)
Example coral_penalty_infinite :
  let x := matrix (N:=floats) [[infinity]; [infinity]] in
  coral_penalty 1 x x = Ok nan.
Proof. vm_compute. reflexivity. Qed.

(** ** Deep CORAL: the penalty of a tensor with itself, on any numbers (C6) *)

Section Cancelling.
Context {N : numbers} (d : nat).
Hypothesis Z0 : zero_arithmetic N d.
Implicit Types (x : list (list N)) (l : list N).






End Cancelling.

(** An exact arithmetic has the arithmetic on 0 for any number of feature
    columns but none. *)
Lemma exact_zero_arithmetic (N : numbers) (defined : N -> Prop) (d : nat) :
  exact_arithmetic N defined -> (0 < d)%nat -> zero_arithmetic N d.
Proof.
  intros E Hd. split.
  - apply (mul_zero_zero _ _ E).
  - apply (add_zero_zero _ _ E).
  - apply (div_zero _ _ E). lia.
  - apply (div_zero _ _ E). nia.
Qed.




(** ** Deep CORAL: the objective in training mode (C4) *)

Lemma group_pairs_elem n i j :
  (i, j) ∈ group_pairs n <-> (i < j < n)%nat.
Proof.
  unfold group_pairs. rewrite list_elem_of_In, in_flat_map. split.
  - intros (i' & Hi & Hj). apply in_seq in Hi. apply in_map_iff in Hj
      as (j' & [= <- <-] & Hj). apply in_seq in Hj. lia.
  - intros H. exists i. split; [apply in_seq; lia|].
    apply in_map_iff. exists j. split; [done|]. apply in_seq. lia.
Qed.

Section Training.
Context {N : numbers}.

Lemma index_items_take (its : list (list (list N))) idx :
  Forall (fun i => (i < length its)%nat) idx ->
  index_items its idx = Ok (take_items its idx).
Proof.
  induction 1 as [|i idx Hi Hidx IH]; [done|]. simpl.
  destruct (its !! i) as [it|] eqn:E.
  - rewrite IH. simpl. f_equal. f_equal. symmetry. by apply nth_lookup_Some.
  - apply lookup_ge_None in E. lia.
Qed.

Lemma split_into_groups_range (g : list Z) idx :
  idx ∈ (split_into_groups g).2 -> Forall (fun i => (i < length g)%nat) idx.
Proof.
  unfold split_into_groups. simpl. intros (u & -> & _)%list_elem_of_fmap.
  apply Forall_forall. intros i [_ Hi]%list_elem_of_filter.
  apply elem_of_seq in Hi. lia.
Qed.

Lemma split_into_groups_length (g : list Z) :
  length (split_into_groups g).1 = length (split_into_groups g).2.
Proof. unfold split_into_groups. simpl. by rewrite length_map. Qed.

Lemma group_tensors_length (f : tensor N) g :
  length (group_tensors f g) = length (split_into_groups g).2.
Proof. unfold group_tensors. by rewrite length_map. Qed.

Lemma index_select_group (f : tensor N) g k idx :
  (length g <= length (items f))%nat ->
  (split_into_groups g).2 !! k = Some idx ->
  index_select f idx = Ok (nth k (group_tensors f g) no_tensor).
Proof.
  intros Hlen Hk. unfold index_select.
  rewrite index_items_take.
  2:{ eapply Forall_impl; [eapply split_into_groups_range;
        by eapply list_elem_of_lookup_2|]. simpl. lia. }
  simpl. f_equal. symmetry. apply nth_lookup_Some.
  unfold group_tensors. by rewrite list_lookup_fmap, Hk.
Qed.

Lemma coral_penalty_same_ndim d (x y : tensor N) :
  ndim x = ndim y ->
  coral_penalty d x y = Ok (coral_penalty2 d (view2 x) (view2 y)).
Proof. unfold coral_penalty. intros ->. by destruct (2 <? ndim y)%nat. Qed.

Lemma add_penalties_sum (f : nat -> nat -> result N) (f' : nat * nat -> N)
    pairs acc :
  (forall i j, (i, j) ∈ pairs -> f i j = Ok (f' (i, j))) ->
  add_penalties f pairs acc = Ok (fold_left (add N) (map f' pairs) acc).
Proof.
  revert acc. induction pairs as [|[i j] pairs IH]; intros acc H; [done|].
  simpl. rewrite (H i j) by left. simpl. apply IH.
  intros i' j' Hin. apply H. by right.
Qed.

End Training.

Local Arguments split_into_groups : simpl never.

Section TrainingObjective.
Context {N : numbers}.
Implicit Types (f : tensor N) (g : list Z)
  (unl : option (tensor N * list Z)) (r : gmap string (rvalue N)).

Lemma batch_groups_length f g unl :
  length (batch_groups f g unl)
  = (length (split_into_groups g).2 + length (unl_indices unl))%nat.
Proof.
  unfold batch_groups, unl_indices. rewrite length_app, group_tensors_length.
  destruct unl as [[uf ug]|]; [by rewrite group_tensors_length | done].
Qed.

Lemma group_slice_ok r f g unl k :
  (length g <= length (items f))%nat -> unlabeled_ok r f unl ->
  (k < length (batch_groups f g unl))%nat ->
  group_slice (RTensor f) (unl_value unl) (length (split_into_groups g).2)
    ((split_into_groups g).2 ++ unl_indices unl) k
  = Ok (nth k (batch_groups f g unl) no_tensor) /\
  ndim (nth k (batch_groups f g unl) no_tensor) = ndim f.
Proof.
  intros Hlen Hunl Hk. rewrite batch_groups_length in Hk.
  unfold group_slice, batch_groups.
  destruct (Nat.ltb_spec k (length (split_into_groups g).2)) as [Hlt|Hge].
  - cbn [bind as_tensor]. rewrite lookup_app_l by done.
    destruct ((split_into_groups g).2 !! k) as [idx|] eqn:E.
    2:{ apply lookup_ge_None in E. lia. }
    rewrite app_nth1 by (rewrite group_tensors_length; lia).
    rewrite (index_select_group f g k idx) by done. split; [done|].
    unfold group_tensors.
    erewrite nth_lookup_Some; [|by rewrite list_lookup_fmap, E]. done.
  - destruct unl as [[uf ug]|]; cbn [unl_value unl_indices] in *;
      [|rewrite Nat.add_0_r in Hk; lia].
    destruct Hunl as (_ & _ & Hulen & Hnd).
    cbn [bind as_tensor]. rewrite lookup_app_r by done.
    destruct ((split_into_groups ug).2 !! (k - length (split_into_groups g).2)%nat)
      as [idx|] eqn:E.
    2:{ apply lookup_ge_None in E. lia. }
    rewrite app_nth2 by (rewrite group_tensors_length; lia).
    rewrite group_tensors_length.
    rewrite (index_select_group uf ug _ idx) by done. split; [done|].
    unfold group_tensors.
    erewrite nth_lookup_Some; [|by rewrite list_lookup_fmap, E]. done.
Qed.

Lemma pair_penalty_ok d r f g unl i j :
  (length g <= length (items f))%nat -> unlabeled_ok r f unl ->
  (i, j) ∈ group_pairs (length (batch_groups f g unl)) ->
  pair_penalty d (RTensor f) (unl_value unl) (length (split_into_groups g).2)
    ((split_into_groups g).2 ++ unl_indices unl) i j
  = Ok (coral_penalty2 d (view2 (nth i (batch_groups f g unl) no_tensor))
                         (view2 (nth j (batch_groups f g unl) no_tensor))).
Proof.
  intros Hlen Hunl Hij%group_pairs_elem. unfold pair_penalty.
  destruct (group_slice_ok r f g unl i Hlen Hunl) as [-> Hi]; [lia|].
  destruct (group_slice_ok r f g unl j Hlen Hunl) as [-> Hj]; [lia|].
  simpl. apply coral_penalty_same_ndim. congruence.
Qed.

Lemma unlabeled_groups_ok r f unl :
  unlabeled_ok r f unl ->
  unlabeled_groups r
  = Ok (delete "unlabeled_features" r, unl_value unl,
        length (unl_indices unl), unl_indices unl).
Proof.
  unfold unlabeled_groups, unlabeled_ok, unl_value, unl_indices.
  destruct unl as [[uf ug]|].
  - intros (-> & Hug & _ & _). unfold rget.
    rewrite lookup_delete_ne, Hug by done. cbn [bind as_groups].
    pose proof (split_into_groups_length ug) as Hl.
    destruct (split_into_groups ug) as [uu ui]. cbn [fst snd] in *.
    by rewrite Hl.
  - intros H. rewrite H. by rewrite delete_id.
Qed.

Lemma pairwise_sum_few d (groups : list (tensor N)) :
  (length groups <= 1)%nat -> pairwise_sum d groups = zero N.
Proof.
  unfold pairwise_sum. destruct groups as [|x [|y groups]]; simpl; [done..|lia].
Qed.

Lemma training_penalty_ok d r f g unl :
  r !! "g" = Some (RGroups g) ->
  (length g <= length (items f))%nat -> unlabeled_ok r f unl ->
  training_penalty d (RTensor f) r
  = Ok (delete "unlabeled_features" r, mean_penalty d (batch_groups f g unl)).
Proof.
  intros Hg Hlen Hunl. unfold training_penalty, rget. rewrite Hg.
  cbn [bind as_groups].
  pose proof (split_into_groups_length g) as Hl.
  pose proof (fun i j => pair_penalty_ok d r f g unl i j Hlen Hunl) as Hp.
  pose proof (batch_groups_length f g unl) as Hn.
  destruct (split_into_groups g) as [u gi]. cbn [fst snd] in *.
  rewrite (unlabeled_groups_ok r f unl) by done. cbn [bind].
  rewrite Hl, <- Hn.
  rewrite (add_penalties_sum _
             (fun ij => coral_penalty2 d
                (view2 (nth ij.1 (batch_groups f g unl) no_tensor))
                (view2 (nth ij.2 (batch_groups f g unl) no_tensor))))
    by (intros i j; apply Hp).
  cbn [bind].
  unfold mean_penalty. fold (pairwise_sum d (batch_groups f g unl)).
  destruct (Nat.ltb_spec 1 (length (batch_groups f g unl))); [done|].
  by rewrite pairwise_sum_few.
Qed.

(** C4, as the code has it.  In training mode, on a mapping as
    [process_batch] leaves it (features and a group identifier for each
    example, the unlabeled ones when present), [objective] takes the
    groups of the labeled examples and then those of the unlabeled
    examples, and returns the base loss plus the penalty times the penalty
    weight, where the penalty -- also stored under ['penalty'] -- is: with
    at least 2 groups, the sum of [coral_penalty] over the pairs [i < j] of
    groups divided by the number n(n-1)/2 of pairs; with fewer than 2
    groups, 0, and nothing is divided. *)
Theorem objective_training (self : algorithm N) r f g unl y_pred y_true base :
  is_training self = true ->
  r !! "features" = Some (RTensor f) ->
  r !! "g" = Some (RGroups g) ->
  (length g <= length (items f))%nat ->
  unlabeled_ok r f unl ->
  r !! "y_pred" = Some y_pred -> r !! "y_true" = Some y_true ->
  loss_compute self y_pred y_true = Ok base ->
  let groups := batch_groups f g unl in
  let mean := mean_penalty (d_features self) groups in
  objective self r
  = Ok (<["penalty" := RNum mean]>
          (delete "unlabeled_features" (delete "features" r)),
        add N base (mul N mean (penalty_weight self))) /\
  ((2 <= length groups)%nat ->
   mean = div N (pairwise_sum (d_features self) groups)
            (of_Z N (n_pairs (length groups)))) /\
  ((length groups < 2)%nat -> mean = zero N).
Proof.
  intros Ht Hf Hg Hlen Hunl Hp Hy Hl groups mean. split; [|split].
  - unfold objective, rget. rewrite Hf, Ht. cbn [bind].
    rewrite (training_penalty_ok _ _ f g unl).
    + cbn [bind]. fold groups. fold mean.
      rewrite !lookup_insert_ne, !lookup_delete_ne, Hp, Hy by done.
      cbn [bind]. by rewrite Hl.
    + by rewrite lookup_delete_ne.
    + done.
    + unfold unlabeled_ok in *. destruct unl as [[uf ug]|].
      * by rewrite !lookup_delete_ne.
      * by rewrite lookup_delete_ne.
  - intros H. unfold mean, mean_penalty.
    destruct (Nat.ltb_spec 1 (length groups)); [done | lia].
  - intros H. unfold mean, mean_penalty.
    destruct (Nat.ltb_spec 1 (length groups)); [lia | done].
Qed.

End TrainingObjective.

(** ** Deep CORAL: the pairs, the groups, and runs of the objective *)

Lemma group_pairs_count_from n a m :
  (a + m = n)%nat ->
  (2 * length (flat_map (fun i => map (fun j => (i, j))
                                      (seq (S i) (n - S i))) (seq a m))
   = m * (m - 1))%nat.
Proof.
  revert a. induction m as [|m IH]; intros a Ha; [done|].
  simpl. rewrite length_app, length_map, length_seq.
  specialize (IH (S a) ltac:(lia)). nia.
Qed.

(** There are n(n-1)/2 pairs. *)
Lemma group_pairs_count n : Z.of_nat (length (group_pairs n)) = n_pairs n.
Proof.
  pose proof (group_pairs_count_from n 0 n eq_refl) as H.
  unfold n_pairs. fold (group_pairs n) in H.
  apply Z.div_unique_exact; [done|]. nia.
Qed.

(** The groups are those of the identifiers: the examples of the group at
    position [k] are the examples whose identifier is the one at [k]. *)
Lemma split_into_groups_spec (g : list Z) k u idx i :
  (split_into_groups g).1 !! k = Some u ->
  (split_into_groups g).2 !! k = Some idx ->
  i ∈ idx <-> g !! i = Some u.
Proof.
  unfold split_into_groups. simpl. rewrite list_lookup_fmap. intros ->.
  intros [= <-]. rewrite list_elem_of_filter, elem_of_seq. split.
  - by intros [? _].
  - intros H. split; [done|]. apply lookup_lt_Some in H. lia.
Qed.

Lemma split_into_groups_unique (g : list Z) :
  NoDup (split_into_groups g).1 /\
  forall u, u ∈ (split_into_groups g).1 <-> u ∈ g.
Proof.
  unfold split_into_groups. simpl. split; [apply NoDup_remove_dups|].
  intros u. apply elem_of_remove_dups.
Qed.

Lemma objective_training_witness :
  let self := example_algorithm true in
  let r := example_results [0; 0; 1; 1]%Z example_features in
  let groups := batch_groups example_features [0; 0; 1; 1]%Z None in
  let mean := mean_penalty 1 groups in
  length groups = 2%nat /\ mean = 40%float /\
  objective self r
  = Ok (<["penalty" := RNum mean]>
          (delete "unlabeled_features" (delete "features" r)),
        add floats 1.5%float (mul floats mean (penalty_weight self))).
Proof.
  intros self r groups mean. split; [reflexivity|]. split; [reflexivity|].
  apply (objective_training self r example_features [0; 0; 1; 1]%Z None
           (RTensor (@matrix floats [[0.5%float]]))
           (RTensor (@matrix floats [[1%float]])) 1.5%float);
    reflexivity.
Defined.

(** C4 as stated fails: with one group there is no pair, the code does not
    divide and returns the base loss, where the sum divided by C(1,2) = 0
    is nan. *)
Lemma objective_one_group :
  let self := example_algorithm true in
  let r := example_results [0; 0; 0; 0]%Z example_features in
  let groups := batch_groups example_features [0; 0; 0; 0]%Z None in
  length groups = 1%nat /\
  (exists r', objective self r = Ok (r', 1.5%float)) /\
  add floats 1.5%float
    (mul floats (mean_penalty_spec 1 groups) (penalty_weight self)) = nan /\
  1.5%float <> nan.
Proof.
  intros self r groups. split; [reflexivity|]. split; [|split].
  - eexists. vm_compute. reflexivity.
  - vm_compute. reflexivity.
  - intros H. apply (f_equal PrimFloat.is_nan) in H. vm_compute in H.
    discriminate H.
Qed.

Lemma objective_evaluation_witness :
  let self := example_algorithm false in
  let r := example_results [0; 0; 1; 1]%Z example_features in
  objective self r
  = Ok (<["penalty" := RNum (zero floats)]> (delete "features" r),
        add floats 1.5%float (mul floats (zero floats) (penalty_weight self)))
  /\
  (mul floats (zero floats) (penalty_weight self) = zero floats ->
   exists r', objective self r = Ok (r', add floats 1.5%float (zero floats))).
Proof.
  intros self r.
  apply (objective_evaluation self r (RTensor example_features)
           (RTensor (@matrix floats [[0.5%float]]))
           (RTensor (@matrix floats [[1%float]])) 1.5%float);
    reflexivity.
Defined.

(** C5 as stated fails: with an infinite penalty weight [0 * weight] is
    nan, and so is the objective, where the base loss plus 0 is 1.5. *)
Lemma objective_evaluation_infinite_weight :
  let self : algorithm floats :=
    @Build_algorithm floats false infinity (fun _ _ => Ok 1.5%float) 1 in
  let r := example_results [0; 0; 1; 1]%Z example_features in
  (exists r', objective self r = Ok (r', nan)) /\
  add floats 1.5%float (zero floats) = 1.5%float /\
  1.5%float <> nan.
Proof.
  intros self r. split; [|split].
  - eexists. vm_compute. reflexivity.
  - vm_compute. reflexivity.
  - intros H. apply (f_equal PrimFloat.is_nan) in H. vm_compute in H.
    discriminate H.
Qed.

Example objective_evaluation_value :
  exists r',
    objective (example_algorithm false)
      (example_results [0; 0; 1; 1]%Z example_features) = Ok (r', 1.5%float) /\
    r' !! "penalty" = Some (@RNum floats 0%float) /\ r' !! "features" = None /\
    r' !! "g" = Some (RGroups [0; 0; 1; 1]%Z).
Proof. eexists. split; [vm_compute; reflexivity|]. repeat split. Qed.

Example objective_training_value :
  exists r',
    objective (example_algorithm true)
      (example_results [0; 0; 1; 1]%Z example_features) = Ok (r', 81.5%float) /\
    r' !! "penalty" = Some (@RNum floats 40%float) /\ r' !! "features" = None.
Proof. eexists. split; [vm_compute; reflexivity|]. repeat split. Qed.

Example objective_without_features :
  objective (example_algorithm true) (∅ : gmap string (rvalue floats))
  = Raise (KeyError (VStr "features")).
Proof. reflexivity. Qed.

(** * Further properties of the code *)

(** ** [populate_config]: further properties *)

Lemma populate_kwargs_force_same key val d_key items r :
  populate_kwargs true key val d_key items = Ok r ->
  populate_kwargs false key val d_key items = Ok r.
Proof.
  revert d_key. induction items as [|[k v] items IH]; intros d_key; [done|].
  simpl. destruct d_key as [| | | | |d]; try done.
  destruct (dict_get d k) as [w|]; [|apply IH].
  rewrite andb_true_r, andb_false_r.
  destruct w; try apply IH; (destruct (py_ne _ v); [done | apply IH]).
Qed.

Lemma populate_items_force_same c items c' :
  populate_items true c items = Ok c' -> populate_items false c items = Ok c'.
Proof.
  revert c. induction items as [|[k v] items IH]; intros c; [done|].
  simpl. destruct v as [| | | | |kwargs];
    try (destruct (dict_get c k) as [w|]; [|apply IH];
         rewrite andb_true_r, andb_false_r;
         destruct w; try apply IH; (destruct (py_ne _ _); [done | apply IH])).
  destruct kwargs as [|kv kwargs]; [apply IH|].
  destruct (dict_get c k) as [w|]; [|done].
  intros H. bind_inv H as r Hr.
  rewrite (populate_kwargs_force_same _ _ _ _ _ Hr). simpl. by apply IH.
Qed.

(** X1.  [force_compatibility] only adds errors: when the call with it
    returns, the call without it returns the same configuration. *)
Theorem populate_config_force_same (C : dict) (T : option dict) (C' : dict) :
  populate_config C T true = Ok C' -> populate_config C T false = Ok C'.
Proof.
  destruct T as [t|]; simpl; [|done]. apply populate_items_force_same.
Qed.

Lemma merge1_ready c k v c' :
  merge1 c k v = Ok c' -> kwargs_ready c [(k, v)] = true.
Proof.
  intros [[-> _]|[(kwargs & d & -> & E & _)|[Hv _]]]%merge1_cases; simpl.
  - done.
  - rewrite E. by destruct kwargs.
  - by destruct v.
Qed.

Lemma populate_items_ready c t c' :
  NoDup (keys t) -> populate_items false c t = Ok c' ->
  kwargs_ready c t = true.
Proof.
  revert c. induction t as [|[k v] t IH]; intros c; [done|].
  simpl keys. rewrite NoDup_cons. intros [Hk Hnd].
  rewrite populate_items_cons. intros H. bind_inv H as c1 Hm.
  rewrite kwargs_ready_cons, (merge1_ready _ _ _ _ Hm). simpl.
  rewrite <- (kwargs_ready_ext c c1); [by apply IH|].
  intros k' Hk'. eapply merge1_get_ne; [done|]. by intros ->.
Qed.

(** X2.  For a template with unique keys, the call without
    [force_compatibility] returns exactly when the configuration holds a
    dictionary wherever the template has a nested dictionary with entries;
    otherwise it raises ([KeyError] or [TypeError]). *)
Theorem populate_config_returns_iff (C T : dict) :
  unique_keys T = true ->
  (exists C', populate_config C (Some T) false = Ok C')
  <-> kwargs_ready C T = true.
Proof.
  intros Hu. pose proof (unique_keys_NoDup _ Hu) as Hnd. simpl. split.
  - intros [C' H]. by eapply populate_items_ready.
  - intros Hr. destruct (populate_items_merged C T Hnd Hr) as (C' & H & _).
    by exists C'.
Qed.

Lemma keys_dict_set d k v :
  keys (dict_set d k v)
  = match dict_get d k with
    | Some _ => keys d
    | None => (keys d ++ [k])%list
    end.
Proof.
  induction d as [|[k' v'] d IH]; simpl; [done|].
  destruct (String.eqb_spec k' k) as [->|]; simpl; [done|].
  rewrite IH. by destruct (dict_get d k).
Qed.

Lemma keys_extends_set d k v :
  exists new, keys (dict_set d k v) = (keys d ++ new)%list /\ new ⊆ [k].
Proof.
  rewrite keys_dict_set. destruct (dict_get d k).
  - exists []. split; [by rewrite app_nil_r | apply list_subseteq_nil].
  - exists [k]. split; done.
Qed.

Lemma merge1_keys c k v c' :
  merge1 c k v = Ok c' ->
  exists new, keys c' = (keys c ++ new)%list /\ new ⊆ [k].
Proof.
  intros [[_ ->]|[(kwargs & d & _ & E & ->)|[_ ->]]]%merge1_cases.
  - exists []. split; [by rewrite app_nil_r | apply list_subseteq_nil].
  - apply keys_extends_set.
  - unfold fill1. destruct (unset c k); [apply keys_extends_set|].
    exists []. split; [by rewrite app_nil_r | apply list_subseteq_nil].
Qed.

Lemma populate_items_keys c t c' :
  populate_items false c t = Ok c' ->
  exists new, keys c' = (keys c ++ new)%list /\ new ⊆ keys t.
Proof.
  revert c. induction t as [|[k v] t IH]; intros c.
  - intros [= <-]. exists []. split; [by rewrite app_nil_r | apply list_subseteq_nil].
  - rewrite populate_items_cons. intros H. bind_inv H as c1 Hm.
    apply merge1_keys in Hm as (new1 & E1 & H1).
    apply IH in H as (new2 & E2 & H2).
    exists (new1 ++ new2)%list. split.
    + by rewrite E2, E1, app_assoc.
    + simpl. intros x [Hx|Hx]%elem_of_app.
      * apply H1 in Hx. apply list_elem_of_singleton in Hx as ->. left.
      * right. by apply H2.
Qed.

Lemma dict_set_NoDup d k v : NoDup (keys d) -> NoDup (keys (dict_set d k v)).
Proof.
  intros Hnd. rewrite keys_dict_set.
  destruct (dict_get d k) eqn:E; [done|].
  apply NoDup_app. split; [done|]. split; [|apply NoDup_singleton].
  intros x Hx ->%list_elem_of_singleton. by apply dict_get_None in E.
Qed.

Lemma merge1_NoDup c k v c' :
  merge1 c k v = Ok c' -> NoDup (keys c) -> NoDup (keys c').
Proof.
  intros [[_ ->]|[(kwargs & d & _ & E & ->)|[_ ->]]]%merge1_cases Hnd.
  - done.
  - by apply dict_set_NoDup.
  - unfold fill1. destruct (unset c k); [by apply dict_set_NoDup | done].
Qed.

Lemma populate_items_NoDup c t c' :
  populate_items false c t = Ok c' -> NoDup (keys c) -> NoDup (keys c').
Proof.
  revert c. induction t as [|[k v] t IH]; intros c.
  - by intros [= <-].
  - rewrite populate_items_cons. intros H. bind_inv H as c1 Hm.
    intros Hnd. eapply IH; [done|]. by eapply merge1_NoDup.
Qed.

(** X3.  No attribute is removed or moved: the attributes of the
    configuration returned are those it had, in their order, followed by
    new ones that are keys of the template; and they stay distinct. *)
Theorem populate_config_keys (C : dict) (T : option dict) (force : bool)
    (C' : dict) :
  populate_config C T force = Ok C' ->
  (exists new, keys C' = (keys C ++ new)%list /\
               new ⊆ match T with Some t => keys t | None => [] end) /\
  (NoDup (keys C) -> NoDup (keys C')).
Proof.
  intros H.
  assert (H' : populate_config C T false = Ok C').
  { destruct force; [by apply populate_config_force_same | done]. }
  clear H. destruct T as [t|]; simpl in H'.
  - split; [by apply populate_items_keys | by apply (populate_items_NoDup C t)].
  - injection H' as <-. split; [|done]. exists []. split; [by rewrite app_nil_r | apply list_subseteq_nil].
Qed.

Lemma populate_config_force_same_witness :
  let C := [("lr", VInt 3); ("model_kwargs", VDict [])] in
  let T := Some [("lr", VInt 3); ("n_epochs", VInt 5);
                 ("model_kwargs", VDict [("pretrained", VBool true)])] in
  let C' := [("lr", VInt 3);
             ("model_kwargs", VDict [("pretrained", VBool true)]);
             ("n_epochs", VInt 5)] in
  populate_config C T true = Ok C' /\ populate_config C T false = Ok C'.
Proof.
  intros C T C'. split; [reflexivity|].
  apply (populate_config_force_same C T C'). reflexivity.
Defined.

Lemma populate_config_returns_iff_witness :
  let C := [("lr", VNone); ("model_kwargs", VInt 0)] in
  let T := [("lr", VInt 3);
            ("model_kwargs", VDict [("pretrained", VBool true)])] in
  unique_keys T = true /\
  ((exists C', populate_config C (Some T) false = Ok C')
   <-> kwargs_ready C T = true).
Proof.
  intros C T. split; [reflexivity|].
  apply (populate_config_returns_iff C T). reflexivity.
Defined.

Lemma populate_config_keys_witness :
  let C := [("lr", VNone); ("model_kwargs", VDict [])] in
  let T := Some [("n_epochs", VInt 5); ("lr", VInt 3)] in
  let C' := [("lr", VInt 3); ("model_kwargs", VDict []); ("n_epochs", VInt 5)] in
  populate_config C T false = Ok C' /\
  (exists new, keys C' = (keys C ++ new)%list /\
               new ⊆ match T with Some t => keys t | None => [] end) /\
  (NoDup (keys C) -> NoDup (keys C')).
Proof.
  intros C T C'. split; [reflexivity|].
  apply (populate_config_keys C T false C'). reflexivity.
Defined.

(** ** [populate_defaults]: further properties *)

Lemma py_assert_Ok b msg x : py_assert b msg = Ok x -> b = true.
Proof. unfold py_assert. by destruct b. Qed.

(** What the validations have checked and done when they return. *)
Lemma validations_Ok c c1 :
  validations c = Ok c1 ->
  exists ds alg gb,
    dict_get c "dataset" = Some ds /\ is_none ds = false /\
    dict_get c "algorithm" = Some alg /\ is_none alg = false /\
    dict_get c "groupby_fields" = Some gb /\
    (py_eq alg (VStr "DANN") = true -> dict_get c "lr" = Some VNone) /\
    (if py_eq gb from_source_domain
     then exists nv uv,
       dict_get c "n_groups_per_batch" = Some nv /\
       dict_get c "unlabeled_n_groups_per_batch" = Some uv /\
       c1 = set_count (set_count c "n_groups_per_batch" nv)
              "unlabeled_n_groups_per_batch" uv
     else c1 = c).
Proof.
  intros H. pose proof H as H0. unfold validations in H.
  bind_inv H as ds Hds. bind_inv H as x1 Hx1. apply py_assert_Ok in Hx1.
  bind_inv H as alg Halg. bind_inv H as x2 Hx2. apply py_assert_Ok in Hx2.
  bind_inv H as gb Hgb. apply getattr_inv in Hds, Halg, Hgb.
  apply negb_true_iff in Hx1, Hx2.
  exists ds, alg, gb. repeat (split; [done|]).
  bind_inv H as c' Hc'. bind_inv H as alg' Halg'. apply getattr_inv in Halg'.
  assert (Hlr : py_eq alg' (VStr "DANN") = true ->
                dict_get c' "lr" = Some VNone).
  { intros E. rewrite E in H. bind_inv H as lr Hlr.
    apply getattr_inv in Hlr. by destruct lr. }
  assert (Hcc : c' = c1).
  { destruct (py_eq alg' (VStr "DANN")); [|congruence].
    bind_inv H as lr Hlr'. destruct (negb (is_none lr)); congruence. }
  clear H. subst c'.
  destruct (py_eq gb from_source_domain) eqn:Egb.
  - destruct (validations_inv c gb c1 Hgb Egb H0)
      as (nv & uv & Hn & Hu & _ & _ & E).
    split; [|by eauto 6].
    intros Hdann. subst c1.
    assert (Ha : alg' = alg).
    { revert Halg'. unfold set_count, setattr.
      destruct (is_none uv), (is_none nv);
        rewrite ?dict_get_set_ne by done; congruence. }
    subst alg'. specialize (Hlr Hdann). revert Hlr.
    unfold set_count, setattr.
    destruct (is_none uv), (is_none nv);
      rewrite ?dict_get_set_ne by done; congruence.
  - injection Hc' as <-. split; [|done].
    rewrite Halg in Halg'. injection Halg' as <-. done.
Qed.

Lemma keeps_set_count c key v :
  dict_get c key = Some v -> keeps c (set_count c key v).
Proof.
  intros H. unfold set_count, setattr. destruct v; try apply keeps_refl.
  simpl. intros k w Hk Hw. destruct (decide (key = k)) as [->|Hne].
  - rewrite H in Hk. by injection Hk as <-.
  - by rewrite dict_get_set_ne.
Qed.

Lemma validations_keeps c c1 : validations c = Ok c1 -> keeps c c1.
Proof.
  intros (ds & alg & gb & _ & _ & _ & _ & _ & _ & H)%validations_Ok.
  destruct (py_eq gb from_source_domain); [|subst; apply keeps_refl].
  destruct H as (nv & uv & Hn & Hu & ->).
  apply (keeps_trans _ (set_count c "n_groups_per_batch" nv));
    [by apply keeps_set_count|].
  apply keeps_set_count. revert Hu. unfold set_count, setattr.
  destruct (is_none nv); [by rewrite dict_get_set_ne | done].
Qed.

Lemma check_required_Ok c fields x :
  check_required c fields = Ok x -> forallb (is_set c) fields = true.
Proof.
  induction fields as [|f fields IH]; [done|]. simpl. intros H.
  bind_inv H as v Hv. bind_inv H as y Hy. apply getattr_inv in Hv.
  apply py_assert_Ok in Hy. unfold is_set at 1. rewrite Hv, Hy. simpl. auto.
Qed.

Lemma populate_defaults_stages P c c' :
  populate_defaults P c = Ok c' ->
  exists c1 c2,
    validations c = Ok c1 /\ cascade P c1 = Ok c2 /\
    misc_defaults c2 = Ok c' /\
    forallb (is_set c') required_fields = true.
Proof.
  unfold populate_defaults. intros H.
  bind_inv H as c1 H1. bind_inv H as c2 H2. bind_inv H as c3 H3.
  bind_inv H as x Hx. injection H as <-.
  exists c1, c2. repeat split; try done. by eapply check_required_Ok.
Qed.

(** X4.  The configuration [populate_defaults] returns is complete: every
    required field is set (not [None]), and [no_group_logging] is a
    boolean, [True] when [groupby_fields] is [None]. *)
Theorem populate_defaults_complete (P : presets) (c c' : dict) :
  populate_defaults P c = Ok c' ->
  Forall (fun field => exists v, dict_get c' field = Some v /\ v <> VNone)
         required_fields /\
  exists b, dict_get c' "no_group_logging" = Some (VBool b) /\
            (dict_get c' "groupby_fields" = Some VNone -> b = true).
Proof.
  intros (c1 & c2 & _ & _ & Hm & Hreq)%populate_defaults_stages. split.
  - apply forallb_Forall_true in Hreq. eapply Forall_impl; [done|].
    intros f Hf. unfold is_set in Hf. simpl in Hf.
    destruct (dict_get c' f) as [v|]; [|done].
    exists v. split; [done|]. by intros ->.
  - pose proof (misc_defaults_get c2 c' "groupby_fields" Hm) as Hgb.
    revert Hm. unfold misc_defaults, getattr, setattr. intros H.
    bind_inv H as gb Hg. bind_inv H as v Hv. injection H as <-.
    rewrite dict_get_set_eq. eexists. split; [done|].
    intros Hnone. rewrite Hgb in Hnone by done.
    destruct (dict_get c2 "groupby_fields") as [gb'|]; [|done].
    injection Hg as <-. injection Hnone as ->. simpl in Hv.
    rewrite dict_get_set_eq in Hv. by injection Hv as <-.
Qed.

(** X5.  What was set before the call stays: a field other than
    [no_group_logging] that is set (not [None]) in the configuration given
    has the same value in the configuration returned; a nested option
    dictionary keeps each of its set sub-fields. *)
Theorem populate_defaults_keeps_user (P : presets) (c c' : dict)
    (key : string) (w : value) :
  populate_defaults P c = Ok c' ->
  key <> "no_group_logging" ->
  dict_get c key = Some w -> w <> VNone ->
  match w with
  | VDict d => exists d', dict_get c' key = Some (VDict d') /\ keeps d d'
  | _ => dict_get c' key = Some w
  end.
Proof.
  intros (c1 & c2 & H1 & H2 & Hm & _)%populate_defaults_stages Hkey Hget Hw.
  rewrite (misc_defaults_get c2 c' key Hm Hkey).
  assert (Hw' : is_none w = false) by by destruct w.
  apply validations_keeps in H1. apply cascade_keeps in H2.
  apply (H2 key w); [by apply (H1 key w) | done].
Qed.

(** X6.  [populate_defaults] returns only for a configuration whose
    [dataset] and [algorithm] are set -- they are the same in the
    configuration returned -- and, when the algorithm is ['DANN'], whose
    [lr] is [None]. *)
Theorem populate_defaults_validated (P : presets) (c c' : dict) :
  populate_defaults P c = Ok c' ->
  exists ds alg,
    dict_get c "dataset" = Some ds /\ ds <> VNone /\
    dict_get c' "dataset" = Some ds /\
    dict_get c "algorithm" = Some alg /\ alg <> VNone /\
    dict_get c' "algorithm" = Some alg /\
    (py_eq alg (VStr "DANN") = true -> dict_get c "lr" = Some VNone).
Proof.
  intros H. pose proof (populate_defaults_stages _ _ _ H) as (c1 & _ & H1 & _).
  apply validations_Ok in H1
    as (ds & alg & gb & Hds & Hdn & Halg & Han & _ & Hdann & _).
  assert (Hd : ds <> VNone) by (by intros ->).
  assert (Ha : alg <> VNone) by (by intros ->).
  exists ds, alg. repeat (split; [done|]).
  pose proof (populate_defaults_keeps_user P c c' "dataset" ds H) as K1.
  pose proof (populate_defaults_keeps_user P c c' "algorithm" alg H) as K2.
  specialize (K1 ltac:(done) Hds Hd). specialize (K2 ltac:(done) Halg Ha).
  assert (Hds' : dict_get c' "dataset" = Some ds).
  { destruct ds; try done.
    (* a dictionary cannot be looked up in the dataset table *)
    exfalso. clear K1 K2.
    apply populate_defaults_stages in H as (s1 & s2 & H1 & H2 & _).
    pose proof (validations_keeps _ _ H1 "dataset" _ Hds eq_refl) as Hd1.
    apply cascade_stages in H2 as (s3 & _ & _ & _ & _ & H2 & _).
    unfold dataset_layer, getattr in H2. rewrite Hd1 in H2. by simpl in H2. }
  assert (Halg' : dict_get c' "algorithm" = Some alg).
  { destruct alg; try done.
    exfalso. clear K1 K2.
    apply populate_defaults_stages in H as (s1 & s2 & H1 & H2 & _).
    pose proof (validations_keeps _ _ H1 "algorithm" _ Halg eq_refl) as Ha1.
    apply cascade_stages in H2 as (s3 & s4 & s5 & s6 & s7 & L1 & L2 & L3 & _).
    apply dataset_layer_template in L1 as [_ L1].
    apply split_layer_template in L2.
    apply populate_config_keeps in L1, L2.
    pose proof (keeps_config_trans _ _ _ L1 L2 "algorithm" _ Ha1 eq_refl)
      as (d' & Hd' & _).
    unfold algorithm_layer, getattr in L3. rewrite Hd' in L3. by simpl in L3. }
  done.
Qed.

(** X7.  When the validations pass and the dataset is not in
    [dataset_defaults], [populate_defaults] raises the [KeyError] of the
    lookup at line 41. *)
Theorem populate_defaults_unknown_dataset (P : presets) (c c1 : dict)
    (dataset : string) :
  validations c = Ok c1 ->
  dict_get c "dataset" = Some (VStr dataset) ->
  dataset_defaults P !! dataset = None ->
  populate_defaults P c = Raise (KeyError (VStr dataset)).
Proof.
  intros H1 Hds Hnone. unfold populate_defaults. rewrite H1. cbn [bind].
  pose proof (validations_keeps _ _ H1 "dataset" _ Hds eq_refl) as Hd1.
  unfold cascade, dataset_layer, getattr. rewrite Hd1. cbn [bind].
  unfold getitem. simpl. by rewrite Hnone.
Qed.

Lemma populate_defaults_complete_witness :
  let c := example_config "camelyon17" "deepCORAL" from_source_domain VNone
             (VInt 1) in
  populate_defaults example_presets c = Ok example_resolved /\
  Forall (fun field => exists v, dict_get example_resolved field = Some v /\
                                 v <> VNone) required_fields /\
  exists b, dict_get example_resolved "no_group_logging" = Some (VBool b) /\
            (dict_get example_resolved "groupby_fields" = Some VNone ->
             b = true).
Proof.
  intros c. split; [vm_compute; reflexivity|].
  apply (populate_defaults_complete example_presets c example_resolved).
  vm_compute. reflexivity.
Defined.

Lemma populate_defaults_keeps_user_witness :
  let c := example_config "camelyon17" "deepCORAL" from_source_domain VNone
             (VInt 1) in
  populate_defaults example_presets c = Ok example_resolved /\
  dict_get c "lr" = Some (VInt 1) /\
  dict_get example_resolved "lr" = Some (VInt 1).
Proof.
  intros c. split; [vm_compute; reflexivity|]. split; [reflexivity|].
  apply (populate_defaults_keeps_user example_presets c example_resolved
           "lr" (VInt 1)); first [done | vm_compute; reflexivity].
Defined.

Lemma populate_defaults_validated_witness :
  let c := example_config "camelyon17" "deepCORAL" from_source_domain VNone
             (VInt 1) in
  exists ds alg,
    dict_get c "dataset" = Some ds /\ ds <> VNone /\
    dict_get example_resolved "dataset" = Some ds /\
    dict_get c "algorithm" = Some alg /\ alg <> VNone /\
    dict_get example_resolved "algorithm" = Some alg /\
    (py_eq alg (VStr "DANN") = true -> dict_get c "lr" = Some VNone).
Proof.
  intros c.
  apply (populate_defaults_validated example_presets c example_resolved).
  vm_compute. reflexivity.
Defined.

Lemma populate_defaults_unknown_dataset_witness :
  let c := example_config "nowhere" "ERM" VNone VNone VNone in
  populate_defaults example_presets c = Raise (KeyError (VStr "nowhere")).
Proof.
  intros c.
  apply (populate_defaults_unknown_dataset example_presets c c "nowhere");
    reflexivity.
Defined.

(** * Further properties of Deep CORAL *)

(** ** The pairs of groups *)

Lemma group_pairs_NoDup n : NoDup (group_pairs n).
Proof.
  unfold group_pairs. apply NoDup_ListNoDup.
  assert (H : forall l, List.NoDup l ->
    List.NoDup (flat_map (fun i => map (fun j => (i, j))
                                       (seq (S i) (n - S i))) l)).
  { induction 1 as [|i l Hi Hl IH]; simpl; [constructor|].
    apply NoDup_ListNoDup, NoDup_app. split; [|split].
    - apply NoDup_fmap_2; [by intros ?? [=] | apply NoDup_seq].
    - intros [a b] (j & [= -> ->] & _)%list_elem_of_fmap Hin.
      apply list_elem_of_In, in_flat_map in Hin as (i' & Hi' & Hin).
      apply in_map_iff in Hin as (j' & [= <- _] & _). done.
    - by apply NoDup_ListNoDup. }
  apply H, NoDup_ListNoDup, NoDup_seq.
Qed.

(** X8.  The loops of lines 120-121 visit exactly the pairs [i < j] of the
    [n] groups, each once: n(n-1)/2 pairs, the number the sum is divided
    by at line 126. *)
Theorem group_pairs_all (n : nat) :
  (forall i j, (i, j) ∈ group_pairs n <-> (i < j < n)%nat) /\
  NoDup (group_pairs n) /\
  Z.of_nat (length (group_pairs n)) = n_pairs n.
Proof.
  split; [|split].
  - intros i j. apply group_pairs_elem.
  - apply group_pairs_NoDup.
  - apply group_pairs_count.
Qed.

(** ** The penalty is symmetric *)

Section Symmetry.
Context {N : numbers}.
Hypothesis square_sub : forall a b : N, pow2 (sub N a b) = pow2 (sub N b a).

Lemma coral_penalty2_sym d (x y : list (list N)) :
  coral_penalty2 d x y = coral_penalty2 d y x.
Proof.
  unfold coral_penalty2. f_equal; f_equal.
  - apply map_ext. intros j. apply square_sub.
  - f_equal. apply map_ext. intros a. apply map_ext. intros b.
    apply square_sub.
Qed.

End Symmetry.

(** X9.  [coral_penalty] is symmetric in its two tensors (of the same
    number of dimensions), in any arithmetic where [(a - b).pow(2)] is
    [(b - a).pow(2)]: the order of two groups in a pair does not matter. *)
Theorem coral_penalty_symmetric (N : numbers) (d : nat) (x y : tensor N) :
  (forall a b : N, pow2 (sub N a b) = pow2 (sub N b a)) ->
  ndim x = ndim y ->
  coral_penalty d x y = coral_penalty d y x.
Proof.
  intros Hsq Hnd. rewrite !coral_penalty_same_ndim by done.
  f_equal. by apply coral_penalty2_sym.
Qed.

Lemma exact_square_sub (a b : exact) :
  pow2 (sub exact a b) = pow2 (sub exact b a).
Proof.
  unfold pow2. destruct a as [x|], b as [y|]; simpl; try done.
  f_equal. ring.
Qed.

Lemma coral_penalty_symmetric_witness :
  let x := matrix [[rational 1; rational 2]; [rational 3; rational 5]] in
  let y := matrix [[rational 1; rational 2]; [rational 3; rational 6];
                   [rational 0; rational 0]] in
  coral_penalty 2 x y = coral_penalty 2 y x.
Proof.
  intros x y. apply (coral_penalty_symmetric exact 2 x y).
  - apply exact_square_sub.
  - reflexivity.
Defined.

(** ** The objective: what it reads and what it logs *)

Section ObjectiveMore.
Context {N : numbers}.
Implicit Types (self : algorithm N) (r : gmap string (rvalue N)).

Lemma as_groups_Ok (v : rvalue N) g : as_groups v = Ok g -> v = RGroups g.
Proof. destruct v; simpl; congruence. Qed.

(** What [objective] has read when it returns. *)
Lemma objective_Ok self r r' loss :
  objective self r = Ok (r', loss) ->
  exists features p y_pred y_true base,
    r !! "features" = Some features /\
    (if is_training self
     then training_penalty (d_features self) features (delete "features" r)
          = Ok (delete "unlabeled_features" (delete "features" r), p)
     else p = zero N) /\
    r !! "y_pred" = Some y_pred /\ r !! "y_true" = Some y_true /\
    loss_compute self y_pred y_true = Ok base /\
    r' !! "penalty" = Some (RNum p) /\
    loss = add N base (mul N p (penalty_weight self)).
Proof.
  intros H. pose proof (objective_results _ _ _ _ H) as (_ & p0 & Hr').
  unfold objective in H.
  bind_inv H as features Hf. apply rget_inv in Hf.
  bind_inv H as rp Hrp. destruct rp as [r1 p].
  bind_inv H as y_pred Hyp. bind_inv H as y_true Hyt.
  bind_inv H as base Hl. injection H as <- <-.
  apply rget_inv in Hyp, Hyt.
  rewrite lookup_insert_ne in Hyp, Hyt by done.
  exists features, p, y_pred, y_true, base.
  assert (Hr1 : r1 = if is_training self
                     then delete "unlabeled_features" (delete "features" r)
                     else delete "features" r).
  { destruct (is_training self).
    - by eapply training_penalty_results.
    - by injection Hrp as <- _. }
  split; [done|]. split.
  { destruct (is_training self); [by rewrite Hrp, Hr1|].
    by injection Hrp as _ <-. }
  rewrite Hr1 in Hyp, Hyt.
  repeat split; try done.
  - destruct (is_training self);
      rewrite ?lookup_delete_ne in Hyp by done; done.
  - destruct (is_training self);
      rewrite ?lookup_delete_ne in Hyt by done; done.
  - apply lookup_insert_eq.
Qed.

(** X10.  Whenever [objective] returns, the number it has stored under
    ['penalty'] is the penalty of the value it returns: the base loss of
    ['y_pred'] and ['y_true'] plus that number times the penalty weight;
    in evaluation mode the number is 0. *)
Theorem objective_penalty_logged self r r' loss :
  objective self r = Ok (r', loss) ->
  exists p y_pred y_true base,
    r !! "y_pred" = Some y_pred /\ r !! "y_true" = Some y_true /\
    loss_compute self y_pred y_true = Ok base /\
    r' !! "penalty" = Some (RNum p) /\
    loss = add N base (mul N p (penalty_weight self)) /\
    (is_training self = false -> p = zero N).
Proof.
  intros (f & p & y_pred & y_true & base & _ & Hp & Hyp & Hyt & Hl & Hpen & ->)
    %objective_Ok.
  exists p, y_pred, y_true, base. repeat split; try done.
  intros Ht. by rewrite Ht in Hp.
Qed.

(** X11.  In training mode [objective] returns only for a mapping that
    has ['features'], group identifiers under ['g'], and group identifiers
    under ['unlabeled_g'] whenever it has ['unlabeled_features']. *)
Theorem objective_training_keys self r r' loss :
  is_training self = true ->
  objective self r = Ok (r', loss) ->
  is_Some (r !! "features") /\
  (exists g, r !! "g" = Some (RGroups g)) /\
  (is_Some (r !! "unlabeled_features") ->
   exists ug, r !! "unlabeled_g" = Some (RGroups ug)).
Proof.
  intros Ht (f & p & _ & _ & _ & Hf & Hp & _)%objective_Ok.
  rewrite Ht in Hp. split; [by eexists|].
  unfold training_penalty in Hp.
  bind_inv Hp as g Hg. bind_inv Hp as g' Hg'. apply rget_inv in Hg.
  rewrite lookup_delete_ne in Hg by done. apply as_groups_Ok in Hg' as ->.
  split; [by eexists|].
  destruct (split_into_groups g') as [u gi].
  bind_inv Hp as q Hq. clear Hp.
  intros [uf Huf]. unfold unlabeled_groups in Hq.
  rewrite lookup_delete_ne, Huf in Hq by done.
  bind_inv Hq as ug Hug. bind_inv Hq as ug' Hug'. apply rget_inv in Hug.
  rewrite !lookup_delete_ne in Hug by done. apply as_groups_Ok in Hug' as ->.
  by eexists.
Qed.

End ObjectiveMore.

Lemma objective_penalty_logged_witness :
  let self := example_algorithm true in
  let r := example_results [0; 0; 1; 1]%Z example_features in
  exists r' loss,
    objective self r = Ok (r', loss) /\
    exists p y_pred y_true base,
      r !! "y_pred" = Some y_pred /\ r !! "y_true" = Some y_true /\
      loss_compute self y_pred y_true = Ok base /\
      r' !! "penalty" = Some (RNum p) /\
      loss = add floats base (mul floats p (penalty_weight self)) /\
      (is_training self = false -> p = zero floats).
Proof.
  intros self r. eexists _, _. split; [vm_compute; reflexivity|].
  apply (objective_penalty_logged self r). vm_compute. reflexivity.
Defined.

Lemma objective_training_keys_witness :
  let self := example_algorithm true in
  let r := example_results [0; 0; 1; 1]%Z example_features in
  is_Some (r !! "features") /\
  (exists g, r !! "g" = Some (RGroups g)) /\
  (is_Some (r !! "unlabeled_features") ->
   exists ug, r !! "unlabeled_g" = Some (RGroups ug)).
Proof.
  intros self r.
  eapply (objective_training_keys self r); [reflexivity|].
  vm_compute. reflexivity.
Defined.

Example objective_without_groups :
  objective (example_algorithm true)
    (delete "g" (example_results [0; 0; 1; 1]%Z example_features))
  = Raise (KeyError (VStr "g")).
Proof. vm_compute. reflexivity. Qed.

(** ** [process_batch], then [objective]; [populate_defaults], then [__init__] *)

Section ProcessBatch.
Context {N : numbers} {X : Type}.
Implicit Types (m : model N X) (self : algorithm N).

Ltac lookup_results :=
  repeat first [rewrite lookup_delete_ne by done
               |rewrite lookup_insert_ne by done];
  first [apply lookup_insert_eq | apply lookup_empty | done].

Lemma process_batch_lookup m x y_true metadata unl :
  let r := process_batch m (x, y_true, metadata) unl in
  r !! "features" = Some (RTensor (featurizer m x)) /\
  r !! "g" = Some (RGroups (metadata_to_group m metadata)) /\
  r !! "y_pred" = Some (RTensor (classifier m (featurizer m x))) /\
  r !! "y_true" = Some y_true /\
  r !! "unlabeled_features"
  = (fun p => RTensor p.1) <$> unlabeled_of m unl /\
  (forall p, unlabeled_of m unl = Some p ->
             r !! "unlabeled_g" = Some (RGroups p.2)).
Proof.
  unfold process_batch. destruct unl as [[x' md']|]; simpl;
    repeat split; try lookup_results;
    intros p ?; simplify_eq/=; lookup_results.
Qed.

(** X12.  In evaluation mode [objective] returns on every mapping that
    [process_batch] builds, whenever the loss does: no key is missing. *)
Theorem process_batch_objective_evaluation m self x y_true metadata unl base :
  is_training self = false ->
  loss_compute self (RTensor (classifier m (featurizer m x))) y_true
  = Ok base ->
  let r := process_batch m (x, y_true, metadata) unl in
  objective self r
  = Ok (<["penalty" := RNum (zero N)]> (delete "features" r),
        add N base (mul N (zero N) (penalty_weight self))).
Proof.
  intros Ht Hl r.
  destruct (process_batch_lookup m x y_true metadata unl)
    as (Hf & _ & Hp & Hy & _). fold r in Hf, Hp, Hy.
  unfold objective, rget. rewrite Hf, Ht. cbn [bind].
  rewrite !lookup_insert_ne, !lookup_delete_ne, Hp, Hy by done.
  cbn [bind]. by rewrite Hl.
Qed.

(** X13.  In training mode [objective] returns on a mapping that
    [process_batch] builds, whenever the loss does, the grouper gives no
    more identifiers than there are examples, and the unlabeled features
    have as many dimensions as the labeled ones: the penalty is the mean
    penalty over the groups of the labeled and of the unlabeled examples. *)
Theorem process_batch_objective_training m self x y_true metadata unl base :
  is_training self = true ->
  (length (metadata_to_group m metadata)
   <= length (items (featurizer m x)))%nat ->
  (forall p, unlabeled_of m unl = Some p ->
     (length p.2 <= length (items p.1))%nat /\
     ndim p.1 = ndim (featurizer m x)) ->
  loss_compute self (RTensor (classifier m (featurizer m x))) y_true
  = Ok base ->
  let r := process_batch m (x, y_true, metadata) unl in
  let mean :=
    mean_penalty (d_features self)
      (batch_groups (featurizer m x) (metadata_to_group m metadata)
         (unlabeled_of m unl)) in
  objective self r
  = Ok (<["penalty" := RNum mean]>
          (delete "unlabeled_features" (delete "features" r)),
        add N base (mul N mean (penalty_weight self))).
Proof.
  intros Ht Hlen Hunl Hl r mean.
  destruct (process_batch_lookup m x y_true metadata unl)
    as (Hf & Hg & Hp & Hy & Huf & Hug).
  fold r in Hf, Hg, Hp, Hy, Huf, Hug.
  unfold objective, rget. rewrite Hf, Ht. cbn [bind].
  rewrite (training_penalty_ok _ _ (featurizer m x)
             (metadata_to_group m metadata) (unlabeled_of m unl)).
  - cbn [bind]. fold mean.
    rewrite !lookup_insert_ne, !lookup_delete_ne, Hp, Hy by done.
    cbn [bind]. by rewrite Hl.
  - by rewrite lookup_delete_ne.
  - done.
  - unfold unlabeled_ok.
    destruct (unlabeled_of m unl) as [[uf ug]|] eqn:E.
    + destruct (Hunl _ eq_refl) as [H1 H2]. simpl in *.
      rewrite !lookup_delete_ne by done.
      rewrite Huf, (Hug _ eq_refl). done.
    + rewrite lookup_delete_ne by done. by rewrite Huf.
Qed.

End ProcessBatch.

Lemma populate_defaults_keeps_field P c c' key w :
  populate_defaults P c = Ok c' -> key <> "no_group_logging" ->
  dict_get c key = Some w -> is_none w = false ->
  match w with
  | VDict d => exists d', dict_get c' key = Some (VDict d') /\ keeps d d'
  | _ => dict_get c' key = Some w
  end.
Proof.
  intros (c1 & c2 & H1 & H2 & Hm & _)%populate_defaults_stages Hkey Hget Hw.
  rewrite (misc_defaults_get c2 c' key Hm Hkey).
  apply validations_keeps in H1. apply cascade_keeps in H2.
  apply (H2 key w); [by apply (H1 key w) | done].
Qed.

(** X14.  The checks of [__init__] on a configuration that
    [populate_defaults] has returned: they pass when the configuration
    given had [train_loader = 'group'], [uniform_over_groups = True] and
    [distinct_groups = True]; they fail when it had [train_loader] set to
    anything that is not ['group'], whatever the presets are. *)
Theorem check_config_after_defaults (P : presets) (c c' : dict) :
  populate_defaults P c = Ok c' ->
  (dict_get c "train_loader" = Some (VStr "group") ->
   dict_get c "uniform_over_groups" = Some (VBool true) ->
   dict_get c "distinct_groups" = Some (VBool true) ->
   check_config c' = Ok tt) /\
  (forall train_loader,
     dict_get c "train_loader" = Some train_loader ->
     train_loader <> VNone -> py_eq train_loader (VStr "group") = false ->
     check_config c' = Raise (AssertionError "")).
Proof.
  intros H. split.
  - intros H1 H2 H3.
    apply (populate_defaults_keeps_field P c c' _ _ H) in H1, H2, H3;
      try done.
    simpl in H1, H2, H3.
    unfold check_config, getattr. rewrite H1. cbn [bind].
    rewrite H2. cbn [bind]. rewrite H3. reflexivity.
  - intros tl Htl Hset Hne.
    assert (Hn : is_none tl = false)
      by (destruct tl; [by destruct Hset | done..]).
    pose proof (populate_defaults_keeps_field P c c' "train_loader" tl H
                  ltac:(done) Htl Hn) as Hk.
    unfold check_config, getattr.
    destruct tl as [| | | | |d]; [by destruct Hset | ..]; simpl in Hk;
      try (rewrite Hk; cbn [bind]; rewrite Hne; reflexivity).
    destruct Hk as (d' & -> & _). reflexivity.
Qed.

Lemma check_config_after_defaults_witness :
  let c := example_group_config "ERM" (VStr "group") in
  let c' := example_group_resolved "ERM" (VStr "group") in
  let s := example_group_config "deepCORAL" (VStr "standard") in
  let s' := example_group_resolved "deepCORAL" (VStr "standard") in
  (populate_defaults example_presets c = Ok c' /\
   dict_get c "train_loader" = Some (VStr "group") /\
   dict_get c "uniform_over_groups" = Some (VBool true) /\
   dict_get c "distinct_groups" = Some (VBool true) /\
   check_config c' = Ok tt) /\
  (populate_defaults example_presets s = Ok s' /\
   dict_get s "train_loader" = Some (VStr "standard") /\
   check_config s' = Raise (AssertionError "")).
Proof.
  intros c c' s s'.
  assert (Hc : populate_defaults example_presets c = Ok c')
    by (vm_compute; reflexivity).
  assert (Hs : populate_defaults example_presets s = Ok s')
    by (vm_compute; reflexivity).
  split.
  - split; [exact Hc|]. split; [reflexivity|]. split; [reflexivity|].
    split; [reflexivity|].
    apply (check_config_after_defaults example_presets c c' Hc); reflexivity.
  - split; [exact Hs|]. split; [reflexivity|].
    apply (check_config_after_defaults example_presets s s' Hs)
      with (train_loader := VStr "standard"); [reflexivity | discriminate | reflexivity].
Defined.

(** The presets of the example give what the constructor checks. *)
Example check_config_example : check_config example_resolved = Ok tt.
Proof. vm_compute. reflexivity. Qed.

Lemma process_batch_objective_evaluation_witness :
  let self := example_algorithm false in
  let y_true := RTensor (@matrix floats [[1%float]]) in
  let r := process_batch example_model
             (example_features, y_true, RGroups [0; 0; 1; 1]%Z) None in
  objective self r
  = Ok (<["penalty" := RNum (zero floats)]> (delete "features" r),
        add floats 1.5%float (mul floats (zero floats) (penalty_weight self))).
Proof.
  intros self y_true r.
  apply (process_batch_objective_evaluation example_model self
           example_features y_true (RGroups [0; 0; 1; 1]%Z) None 1.5%float);
    reflexivity.
Defined.

Lemma process_batch_objective_training_witness :
  let self := example_algorithm true in
  let y_true := RTensor (@matrix floats [[1%float]]) in
  let unl := Some (@matrix floats [[4%float]; [8%float]], RGroups [7; 7]%Z) in
  let r := process_batch example_model
             (example_features, y_true, RGroups [0; 0; 1; 1]%Z) unl in
  let mean :=
    mean_penalty 1
      (batch_groups example_features [0; 0; 1; 1]%Z
         (unlabeled_of example_model unl)) in
  objective self r
  = Ok (<["penalty" := RNum mean]>
          (delete "unlabeled_features" (delete "features" r)),
        add floats 1.5%float (mul floats mean (penalty_weight self))).
Proof.
  intros self y_true unl r mean.
  apply (process_batch_objective_training example_model self
           example_features y_true (RGroups [0; 0; 1; 1]%Z) unl 1.5%float);
    try reflexivity.
  intros p [= <-]. split; reflexivity.
Defined.

Example process_batch_objective_value :
  let unl := Some (@matrix floats [[4%float]; [8%float]], RGroups [7; 7]%Z) in
  exists r' loss,
    objective (example_algorithm true)
      (process_batch example_model
         (example_features, RTensor (@matrix floats [[1%float]]),
          RGroups [0; 0; 1; 1]%Z) unl) = Ok (r', loss) /\
    length (batch_groups example_features [0; 0; 1; 1]%Z
              (unlabeled_of example_model unl)) = 3%nat /\
    r' !! "features" = None /\ r' !! "unlabeled_features" = None /\
    r' !! "unlabeled_g" = Some (RGroups [7; 7]%Z).
Proof.
  intros unl. eexists _, _. split; [vm_compute; reflexivity|].
  repeat split.
Qed.

(** ** The error of [force_compatibility] names an entry of the template *)

Lemma populate_kwargs_error force key val d_key items m :
  populate_kwargs force key val d_key items = Raise (ValueError m) ->
  force = true /\
  exists sk, sk ∈ keys items /\ m = MustBeSetKw key sk (VDict val).
Proof.
  revert d_key. induction items as [|[k v] items IH]; intros d_key; [done|].
  simpl. destruct d_key as [| | | | |d]; try done.
  assert (Hrest : forall d_key',
    populate_kwargs force key val d_key' items = Raise (ValueError m) ->
    force = true /\
    exists sk, sk ∈ k :: keys items /\ m = MustBeSetKw key sk (VDict val)).
  { intros d_key' (Hf & sk & Hsk & ->)%IH. split; [done|].
    exists sk. split; [by right | done]. }
  destruct (dict_get d k) as [w|]; [|apply Hrest].
  destruct w; try apply Hrest;
    (destruct (py_ne _ v); simpl; [|apply Hrest];
     destruct force; simpl; [|apply Hrest];
     intros [= <-]; split; [done|]; exists k; split; [left | done]).
Qed.

(** X15.  [populate_config] raises a [ValueError] only with
    [force_compatibility], and the message names an entry of the template:
    its key, or its key and a sub-key of its nested dictionary, with the
    entry's value. *)
Theorem populate_config_error_names (C T : dict) (force : bool) (m : message) :
  populate_config C (Some T) force = Raise (ValueError m) ->
  force = true /\
  exists key val,
    (key, val) ∈ T /\
    (m = MustBeSet key val \/
     exists kwargs kwargs_key,
       val = VDict kwargs /\ kwargs_key ∈ keys kwargs /\
       m = MustBeSetKw key kwargs_key val).
Proof.
  simpl. revert C. induction T as [|[k v] T IH]; intros C; [done|].
  assert (Hrest : forall C',
    populate_items force C' T = Raise (ValueError m) ->
    force = true /\
    exists key val,
      (key, val) ∈ (k, v) :: T /\
      (m = MustBeSet key val \/
       exists kwargs kwargs_key,
         val = VDict kwargs /\ kwargs_key ∈ keys kwargs /\
         m = MustBeSetKw key kwargs_key val)).
  { intros C' (Hf & key & val & Hin & Hm)%IH. split; [done|].
    exists key, val. split; [by right | done]. }
  simpl. destruct v as [| | | | |kwargs];
    try (destruct (dict_get C k) as [[]|]; try apply Hrest;
         (destruct (py_ne _ _); simpl; [|apply Hrest];
          destruct force; simpl; [|apply Hrest];
          intros [= <-]; split; [done|]; eexists _, _;
          split; [left | by left])).
  destruct kwargs as [|kv kwargs]; [apply Hrest|].
  destruct (dict_get C k) as [w|]; [|done].
  destruct (populate_kwargs force k (kv :: kwargs) w (kv :: kwargs))
    as [r|e] eqn:E; simpl; [apply Hrest|].
  intros [= ->]. apply populate_kwargs_error in E as (Hf & sk & Hsk & ->).
  split; [done|]. eexists _, _. split; [left|]. right. eauto.
Qed.

Lemma populate_config_error_names_witness :
  let C := [("lr", VInt 3); ("model_kwargs", VDict [("pretrained", VBool false)])] in
  let T := [("lr", VInt 3);
            ("model_kwargs", VDict [("pretrained", VBool true)])] in
  let m := MustBeSetKw "model_kwargs" "pretrained"
             (VDict [("pretrained", VBool true)]) in
  populate_config C (Some T) true = Raise (ValueError m) /\
  exists key val,
    (key, val) ∈ T /\
    (m = MustBeSet key val \/
     exists kwargs kwargs_key,
       val = VDict kwargs /\ kwargs_key ∈ keys kwargs /\
       m = MustBeSetKw key kwargs_key val).
Proof.
  intros C T m. split; [reflexivity|].
  apply (populate_config_error_names C T true m). reflexivity.
Defined.

(** ** A group of one example *)

Lemma nth_map_seq {A} (f : nat -> A) d a dflt :
  (a < d)%nat -> nth a (map f (seq 0 d)) dflt = f a.
Proof.
  intros Ha. apply nth_lookup_Some.
  rewrite list_lookup_fmap, lookup_seq_lt by done. done.
Qed.

Lemma exact_div_zero (a : exact) : div exact a (of_Z exact 0) = None.
Proof.
  simpl. unfold exact_div. destruct a as [x|]; [|done].
  destruct (Qc_eq_dec _ _) as [_|H]; [done|]. by destruct H.
Qed.

Lemma exact_fold_none (l : list exact) :
  fold_left (add exact) l None = None.
Proof. induction l as [|a l IH]; simpl; [done|]. by destruct a. Qed.

Lemma exact_sum_none (l : list exact) : None ∈ l -> sum l = None.
Proof.
  unfold sum. generalize (zero exact). induction l as [|a l IH]; intros acc.
  - by intros ?%elem_of_nil.
  - intros [<-|Hin]%elem_of_cons; simpl.
    + destruct acc; apply exact_fold_none.
    + by apply IH.
Qed.

Lemma exact_mean_all_none (l : list exact) : None ∈ l -> mean_all l = None.
Proof. intros H. unfold mean_all. by rewrite exact_sum_none. Qed.

Lemma covariance_one_row d (c : list (list exact)) a b :
  (a < d)%nat -> (b < d)%nat ->
  nth b (nth a (covariance d c 1) []) (zero exact) = None.
Proof.
  intros Ha Hb. unfold covariance.
  rewrite (nth_map_seq _ d a) by done. rewrite (nth_map_seq _ d b) by done.
  apply exact_div_zero.
Qed.

Lemma coral_penalty2_one_row d (x y : list (list exact)) :
  (0 < d)%nat -> length x = 1%nat \/ length y = 1%nat ->
  coral_penalty2 d x y = None.
Proof.
  intros Hd Hlen. unfold coral_penalty2.
  match goal with |- add exact ?m (mean_all ?l) = _ =>
    assert (H : mean_all l = None); [|rewrite H; by destruct m] end.
  apply exact_mean_all_none.
  apply list_elem_of_In, in_concat. eexists. split.
  - apply in_map_iff. exists 0%nat. split; [reflexivity | apply in_seq; lia].
  - apply in_map_iff. exists 0%nat. split; [|apply in_seq; lia].
    unfold pow2, len. destruct Hlen as [-> | ->]; simpl Z.of_nat.
    + rewrite covariance_one_row by done. done.
    + rewrite (covariance_one_row d _ 0 0) by done.
      by destruct (nth 0 (nth 0 (covariance d _ _) []) (zero exact)).
Qed.

(** X16.  With exact numbers, a division by zero being undefined: when
    one of the two tensors has a single row (and there is at least one
    feature column), [coral_penalty] is undefined, by the division by
    [len(x) - 1] of lines 65-66. *)
Theorem coral_penalty_one_example (d : nat) (x y : tensor exact) :
  (0 < d)%nat -> ndim x = ndim y ->
  length (view2 x) = 1%nat \/ length (view2 y) = 1%nat ->
  coral_penalty d x y = Ok None.
Proof.
  intros Hd Hnd Hlen. rewrite coral_penalty_same_ndim by done.
  f_equal. by apply coral_penalty2_one_row.
Qed.

Lemma coral_penalty_one_example_witness :
  let x := matrix [[rational 1; rational 2]] in
  let y := matrix [[rational 3; rational 5]; [rational 0; rational 1]] in
  coral_penalty 2 x y = Ok None.
Proof.
  intros x y. apply (coral_penalty_one_example 2 x y);
    [lia | reflexivity | by left].
Defined.

(** ** The objective: the mapping it leaves (C10) *)

Section ObjectiveMapping.
Context {N : numbers}.
Implicit Types (results r : gmap string (rvalue N)) (self : algorithm N).
Implicit Types (labeled_features : rvalue N).

(** The two descriptions of the code agree: what each function returns is
    the mapping it leaves with its value, when the call returns, and its
    exception otherwise. *)
Lemma unlabeled_groups_returned results :
  unlabeled_groups results
  = match returned (unlabeled_groups_run results) with
    | Ok (results', (uf, n, idx)) => Ok (results', uf, n, idx)
    | Raise e => Raise e
    end.
Proof.
  unfold unlabeled_groups, unlabeled_groups_run, returned.
  destruct (results !! "unlabeled_features") as [uf|]; [|done].
  cbn [fst snd].
  destruct (rget _ "unlabeled_g") as [ug|e]; [|done]. cbn [bind].
  destruct (as_groups ug) as [ug'|e]; [|done]. cbn [bind].
  by destruct (split_into_groups ug').
Qed.

Lemma training_penalty_returned d labeled_features results :
  training_penalty d labeled_features results
  = returned (training_penalty_run d labeled_features results).
Proof.
  unfold training_penalty, training_penalty_run.
  destruct (rget results "g") as [g|e]; [|done]. cbn [bind].
  destruct (as_groups g) as [g'|e]; [|done]. cbn [bind].
  destruct (split_into_groups g') as [unique_groups group_indices].
  rewrite unlabeled_groups_returned. unfold returned.
  destruct (unlabeled_groups_run results) as [results' [[[uf n] idx]|e]];
    [|done].
  cbn [fst snd bind].
  by destruct (add_penalties _ _ _).
Qed.

Lemma objective_returned self results :
  objective self results = returned (objective_run self results).
Proof.
  unfold objective, objective_run, rget.
  destruct (results !! "features") as [labeled_features|]; [|done].
  cbn [bind].
  destruct (is_training self).
  - rewrite training_penalty_returned. unfold returned.
    destruct (training_penalty_run _ _ _) as [results' [penalty|e]]; [|done].
    cbn [fst snd bind].
    destruct (_ !! "y_pred") as [y_pred|]; [|done]. cbn [bind].
    destruct (_ !! "y_true") as [y_true|]; [|done]. cbn [bind].
    by destruct (loss_compute self y_pred y_true).
  - unfold returned. cbn [fst snd bind].
    destruct (_ !! "y_pred") as [y_pred|]; [|done]. cbn [bind].
    destruct (_ !! "y_true") as [y_true|]; [|done]. cbn [bind].
    by destruct (loss_compute self y_pred y_true).
Qed.

Lemma unlabeled_groups_run_left results :
  (unlabeled_groups_run results).1 = delete "unlabeled_features" results.
Proof.
  unfold unlabeled_groups_run.
  destruct (results !! "unlabeled_features") eqn:E; [done|].
  simpl. symmetry. by apply delete_id.
Qed.

(** In training mode the pop of line 110 is reached or not. *)
Lemma training_penalty_run_left d labeled_features results :
  (training_penalty_run d labeled_features results).1 = results \/
  (training_penalty_run d labeled_features results).1
  = delete "unlabeled_features" results.
Proof.
  unfold training_penalty_run.
  destruct (let* g := rget results "g" in as_groups g) as [g|e];
    [|by left].
  destruct (split_into_groups g) as [unique_groups group_indices].
  pose proof (unlabeled_groups_run_left results) as H.
  destruct (unlabeled_groups_run results) as [results' unl]. by right.
Qed.

Lemma objective_run_left self results :
  exists kept,
    (kept = results \/ kept = delete "unlabeled_features" results) /\
    ((objective_run self results).1 = delete "features" kept \/
     exists p, (objective_run self results).1
               = <["penalty" := RNum p]> (delete "features" kept)).
Proof.
  unfold objective_run.
  destruct (results !! "features") as [labeled_features|] eqn:E.
  - destruct (is_training self).
    + pose proof (training_penalty_run_left (d_features self)
                    labeled_features (delete "features" results)) as H.
      destruct (training_penalty_run _ _ _) as [results' [p|e]];
        cbn [fst snd] in *.
      * destruct H as [-> | ->].
        -- exists results. split; [by left|]. right. by exists p.
        -- exists (delete "unlabeled_features" results).
           split; [by right|]. right. exists p.
           by rewrite delete_delete.
      * destruct H as [-> | ->].
        -- exists results. split; [by left|]. by left.
        -- exists (delete "unlabeled_features" results).
           split; [by right|]. left. by rewrite delete_delete.
    + exists results. split; [by left|]. right. by eexists.
  - exists results. split; [by left|]. left. cbn [fst].
    symmetry. by apply delete_id.
Qed.

(** On a mapping with ['features'], ['y_pred'] and ['y_true'] on which
    the loss returns -- in training mode one as [process_batch] leaves it
    -- [objective] returns. *)
Lemma objective_returns (self : algorithm N) r features f g unl
    y_pred y_true base :
  r !! "features" = Some features ->
  (is_training self = true ->
   features = RTensor f /\ r !! "g" = Some (RGroups g) /\
   (length g <= length (items f))%nat /\ unlabeled_ok r f unl) ->
  r !! "y_pred" = Some y_pred -> r !! "y_true" = Some y_true ->
  loss_compute self y_pred y_true = Ok base ->
  let penalty := computed_penalty self f g unl in
  exists r',
    objective self r
    = Ok (r', add N base (mul N penalty (penalty_weight self))) /\
    r' !! "features" = None /\
    r' !! "penalty" = Some (RNum penalty) /\
    r' !! "unlabeled_features"
    = (if is_training self then None else r !! "unlabeled_features") /\
    forall key, key <> "features" -> key <> "unlabeled_features" ->
                key <> "penalty" -> r' !! key = r !! key.
Proof.
  intros Hf Hw Hp Hy Hl penalty.
  exists (<["penalty" := RNum penalty]>
            (if is_training self
             then delete "unlabeled_features" (delete "features" r)
             else delete "features" r)).
  split; [|split; [|split; [|split]]].
  - unfold objective, rget. rewrite Hf. cbn [bind].
    unfold penalty, computed_penalty.
    destruct (is_training self) eqn:Ht.
    + destruct (Hw eq_refl) as (-> & Hg & Hlen & Hunl).
      rewrite (training_penalty_ok _ _ f g unl).
      * cbn [bind].
        rewrite !lookup_insert_ne, !lookup_delete_ne, Hp, Hy by done.
        cbn [bind]. by rewrite Hl.
      * by rewrite lookup_delete_ne.
      * done.
      * unfold unlabeled_ok in *. destruct unl as [[uf ug]|].
        -- by rewrite !lookup_delete_ne.
        -- by rewrite lookup_delete_ne.
    + cbn [bind].
      rewrite !lookup_insert_ne, !lookup_delete_ne, Hp, Hy by done.
      cbn [bind]. by rewrite Hl.
  - rewrite lookup_insert_ne by done.
    destruct (is_training self); rewrite ?lookup_delete_ne by done;
      apply lookup_delete_eq.
  - apply lookup_insert_eq.
  - rewrite lookup_insert_ne by done.
    destruct (is_training self);
      [apply lookup_delete_eq | by rewrite lookup_delete_ne].
  - intros key H1 H2 H3. rewrite lookup_insert_ne by done.
    destruct (is_training self); by rewrite ?lookup_delete_ne.
Qed.

(** C10.  [objective] updates the mapping in place.  In every call,
    whether it returns or raises, the mapping it leaves has no key
    ['features'], has ['unlabeled_features'] removed or as it was, and has
    every other key but ['penalty'] as it was; what the call returns is
    this mapping with the objective.  On a mapping with ['features'],
    ['y_pred'] and ['y_true'] on which the loss returns -- in training mode
    one as [process_batch] leaves it: features and a group identifier for
    each example, the unlabeled ones when present -- the call returns, and
    in the mapping it leaves ['penalty'] holds the penalty computed (the
    mean penalty over the groups of the batch in training mode and 0 in
    evaluation mode, the one that enters the objective returned), and
    ['unlabeled_features'] is removed in training mode and as it was in
    evaluation mode. *)
Theorem objective_in_place (self : algorithm N)
    (r : gmap string (rvalue N)) :
  let left := (objective_run self r).1 in
  objective self r = returned (objective_run self r) /\
  left !! "features" = None /\
  (left !! "unlabeled_features" = None \/
   left !! "unlabeled_features" = r !! "unlabeled_features") /\
  (forall key, key <> "features" -> key <> "unlabeled_features" ->
               key <> "penalty" -> left !! key = r !! key) /\
  (forall features f g unl y_pred y_true base,
     r !! "features" = Some features ->
     (is_training self = true ->
      features = RTensor f /\ r !! "g" = Some (RGroups g) /\
      (length g <= length (items f))%nat /\ unlabeled_ok r f unl) ->
     r !! "y_pred" = Some y_pred -> r !! "y_true" = Some y_true ->
     loss_compute self y_pred y_true = Ok base ->
     let penalty := computed_penalty self f g unl in
     objective self r
     = Ok (left, add N base (mul N penalty (penalty_weight self))) /\
     left !! "penalty" = Some (RNum penalty) /\
     left !! "unlabeled_features"
     = (if is_training self then None else r !! "unlabeled_features")).
Proof.
  intros left. pose proof (objective_returned self r) as Hret.
  split; [done|].
  destruct (objective_run_left self r) as (kept & Hkept & Hleft).
  fold left in Hleft.
  assert (Hget : forall key, key <> "unlabeled_features" ->
                   kept !! key = r !! key).
  { intros key Hkey. destruct Hkept as [-> | ->]; [done|].
    by rewrite lookup_delete_ne. }
  split; [|split; [|split]].
  - destruct Hleft as [-> | [p ->]]; rewrite ?lookup_insert_ne by done;
      apply lookup_delete_eq.
  - assert (H : left !! "unlabeled_features" = kept !! "unlabeled_features").
    { destruct Hleft as [-> | [p ->]]; rewrite ?lookup_insert_ne by done;
        by rewrite lookup_delete_ne. }
    rewrite H. destruct Hkept as [-> | ->]; [by right | left].
    apply lookup_delete_eq.
  - intros key H1 H2 H3.
    destruct Hleft as [-> | [p ->]]; rewrite ?lookup_insert_ne by done;
      rewrite lookup_delete_ne by done; by apply Hget.
  - intros features f g unl y_pred y_true base Hf Hw Hp Hy Hl penalty.
    destruct (objective_returns self r features f g unl y_pred y_true base
                Hf Hw Hp Hy Hl) as (r' & Hr' & _ & Hpen & Hunl & _).
    fold penalty in Hr', Hpen.
    assert (left = r') as ->.
    { rewrite Hret in Hr'. unfold returned in Hr'. fold left in Hr'.
      destruct (objective_run self r).2; [|done]. by injection Hr' as -> _. }
    done.
Qed.

End ObjectiveMapping.

(** A batch with unlabeled examples, in training mode and in evaluation
    mode; and a call that raises at line 136, after the updates. *)
Lemma objective_in_place_witness :
  let r := example_batch_results in
  let unl := Some (@matrix floats [[4%float]; [8%float]], [7; 7]%Z) in
  r !! "unlabeled_features"
  = Some (RTensor (@matrix floats [[4%float]; [8%float]])) /\
  (exists r',
     objective (example_algorithm true) r = Ok (r', 65.5%float) /\
     r' !! "features" = None /\
     r' !! "penalty" = Some (@RNum floats 32%float) /\
     r' !! "unlabeled_features" = None /\
     forall key, key <> "features" -> key <> "unlabeled_features" ->
                 key <> "penalty" -> r' !! key = r !! key) /\
  (exists r',
     objective (example_algorithm false) r = Ok (r', 1.5%float) /\
     r' !! "features" = None /\
     r' !! "penalty" = Some (@RNum floats 0%float) /\
     r' !! "unlabeled_features" = r !! "unlabeled_features" /\
     forall key, key <> "features" -> key <> "unlabeled_features" ->
                 key <> "penalty" -> r' !! key = r !! key) /\
  (let r0 := delete "y_pred" r in
   let left := (objective_run (example_algorithm true) r0).1 in
   objective (example_algorithm true) r0
   = Raise (KeyError (VStr "y_pred")) /\
   left !! "features" = None /\ left !! "unlabeled_features" = None /\
   left !! "penalty" = Some (@RNum floats 32%float) /\
   forall key, key <> "features" -> key <> "unlabeled_features" ->
               key <> "penalty" -> left !! key = r0 !! key).
Proof.
  intros r unl. split; [reflexivity|]. split; [|split].
  - destruct (objective_in_place (example_algorithm true) r)
      as (_ & Hf & _ & Hk & Hret).
    destruct (Hret (RTensor example_features) example_features
                [0; 0; 1; 1]%Z unl (RTensor example_features)
                (RTensor (@matrix floats [[1%float]])) 1.5%float)
      as (Hobj & Hpen & Hunl); try reflexivity.
    { intros _. split; [reflexivity|]. split; [reflexivity|].
      split; [simpl; lia|]. split; [reflexivity|]. split; [reflexivity|].
      split; [simpl; lia | reflexivity]. }
    exists (objective_run (example_algorithm true) r).1.
    split; [exact Hobj|]. split; [exact Hf|]. split; [exact Hpen|].
    split; [exact Hunl | exact Hk].
  - destruct (objective_in_place (example_algorithm false) r)
      as (_ & Hf & _ & Hk & Hret).
    destruct (Hret (RTensor example_features) example_features
                [0; 0; 1; 1]%Z unl (RTensor example_features)
                (RTensor (@matrix floats [[1%float]])) 1.5%float)
      as (Hobj & Hpen & Hunl); try reflexivity.
    { intros H. discriminate H. }
    exists (objective_run (example_algorithm false) r).1.
    split; [exact Hobj|]. split; [exact Hf|]. split; [exact Hpen|].
    split; [exact Hunl | exact Hk].
  - intros r0 left.
    destruct (objective_in_place (example_algorithm true) r0)
      as (Hobj & Hf & _ & Hk & _).
    split; [rewrite Hobj; vm_compute; reflexivity|].
    split; [exact Hf|]. split; [vm_compute; reflexivity|].
    split; [vm_compute; reflexivity | exact Hk].
Defined.
